(** * Resume parser: the text-to-structure extraction functions of [main.py]

    A shallow embedding of [extract_name], [extract_email], [extract_phone],
    [extract_skills], [extract_education], [extract_experience] and
    [extract_projects], together with the part of Python's [str] and [re]
    that these functions use.

    Python strings are sequences of Unicode code points; a code point is an
    [N].  The Unicode character tables of the Python runtime (whitespace,
    word characters, decimal digits, lowercasing, case variants) are not
    part of the program: they are a parameter [U] of every definition, and
    [ascii_tables] gives their restriction to ASCII for running the
    functions on concrete ASCII documents. *)

From Stdlib Require Import List NArith Arith Bool Ascii String Sorted Lia.
From Stdlib Require Import DecimalString.
Import ListNotations.
Open Scope list_scope.

Set Implicit Arguments.

Abbreviation length := List.length.

(** ** Python strings *)

Definition char := N.
Definition str := list char.

Definition ch (a : ascii) : char := N_of_ascii a.

(** A Rocq string literal read as a Python string (one code point per
    character of the literal). *)
Definition py (s : string) : str := map N_of_ascii (list_ascii_of_string s).

Definition nl : char := 10%N.

Definition str_eqb (a b : str) : bool :=
  if list_eq_dec N.eq_dec a b then true else false.

(** The Unicode tables the program reaches through [str.lower], [str.strip]
    and the [re] module. *)
Record unicode := {
  isspace : char -> bool;              (* str.isspace; regex \s *)
  isword : char -> bool;               (* regex \w : alphanumeric or _ *)
  isdigit : char -> bool;              (* regex \d *)
  lower : str -> str;                  (* str.lower *)
  case_variants : char -> list char    (* the characters equal to a given
                                          one under re.IGNORECASE, itself
                                          included *)
}.

(** [sep.join(parts)] for a one-character separator. *)
Fixpoint join (sep : char) (parts : list str) : str :=
  match parts with
  | [] => []
  | [p] => p
  | p :: ps => p ++ sep :: join sep ps
  end.

(** [s.split(sep)] for a one-character separator: never an empty list. *)
Fixpoint split_on (sep : char) (s : str) : list str :=
  match s with
  | [] => [[]]
  | c :: s' =>
      if N.eqb c sep then [] :: split_on sep s'
      else match split_on sep s' with
           | l :: ls => (c :: l) :: ls
           | [] => [[c]]
           end
  end.

Fixpoint starts_with (p s : str) : bool :=
  match p, s with
  | [], _ => true
  | _ :: _, [] => false
  | a :: p', b :: s' => N.eqb a b && starts_with p' s'
  end.

(** [needle in hay] *)
Fixpoint contains (needle hay : str) : bool :=
  starts_with needle hay ||
  match hay with
  | [] => false
  | _ :: hay' => contains needle hay'
  end.

Fixpoint lstrip_by (p : char -> bool) (s : str) : str :=
  match s with
  | [] => []
  | c :: s' => if p c then lstrip_by p s' else s
  end.

Definition rstrip_by (p : char -> bool) (s : str) : str :=
  rev (lstrip_by p (rev s)).

Definition strip_by (p : char -> bool) (s : str) : str :=
  rstrip_by p (lstrip_by p s).

(** [s.strip(chars)] *)
Definition strip_chars (chars : str) (s : str) : str :=
  strip_by (fun c => existsb (N.eqb c) chars) s.

(** Truth value of a Python string, and of a string-or-None. *)
Definition nonempty (s : str) : bool :=
  match s with [] => false | _ :: _ => true end.

Definition truthy (o : option str) : bool :=
  match o with Some s => nonempty s | None => false end.

(** [x or default] *)
Definition py_or (o : option str) (default : str) : str :=
  if truthy o then match o with Some s => s | None => default end
  else default.

(** [any(x in s for x in keys)] *)
Definition any_in (keys : list str) (s : str) : bool :=
  existsb (fun x => contains x s) keys.

(** [s in options] for a list of strings *)
Definition str_mem (s : str) (options : list str) : bool :=
  existsb (str_eqb s) options.

(** ** Exceptions *)

Inductive exn := AttributeError.

Inductive result (A : Type) :=
| Ok (a : A)
| Raise (e : exn).
Arguments Ok {A} a.
Arguments Raise {A} e.

Definition bind {A B} (r : result A) (f : A -> result B) : result B :=
  match r with
  | Ok a => f a
  | Raise e => Raise e
  end.

(** [for x in xs: body] over an accumulator; an exception in the body
    leaves the loop. *)
Fixpoint for_each {A B} (xs : list A) (acc : B) (body : A -> B -> result B)
  : result B :=
  match xs with
  | [] => Ok acc
  | x :: xs' => bind (body x acc) (fun acc' => for_each xs' acc' body)
  end.

(** ** Regular expressions: the fragment of [re] the program uses *)

Inductive citem :=
| CChar (c : char)
| CRange (lo hi : char)
| CWord      (* \w *)
| CSpace     (* \s *)
| CDigit.    (* \d *)

Inductive regex :=
| Eps
| Chr (items : list citem)                 (* a literal, a class [...] or \d \w \s *)
| Dot                                      (* . : anything but a newline *)
| Seq (a b : regex)
| Alt (a b : regex)                        (* a|b, left first *)
| Rep (r : regex) (lo : nat) (hi : option nat) (greedy : bool)
| Grp (i : nat) (r : regex)                (* capturing group number i *)
| Look (r : regex)                         (* (?=r) *)
| WordB                                    (* \b *)
| Bos                                      (* ^, without re.MULTILINE *)
| Eos.                                     (* $, without re.MULTILINE *)

(** Captured groups: the most recent capture of a group comes first. *)
Definition caps := list (nat * str).

Fixpoint get_group (cs : caps) (i : nat) : option str :=
  match cs with
  | [] => None
  | (j, s) :: cs' => if Nat.eqb i j then Some s else get_group cs' i
  end.

(** Number of capturing groups of a pattern. *)
Fixpoint ngroups (r : regex) : nat :=
  match r with
  | Seq a b | Alt a b => Nat.max (ngroups a) (ngroups b)
  | Rep r' _ _ _ | Look r' => ngroups r'
  | Grp i r' => Nat.max i (ngroups r')
  | _ => 0
  end.

Definition orelse {A} (a : option A) (b : unit -> option A) : option A :=
  match a with
  | Some x => Some x
  | None => b tt
  end.

Definition below (n : nat) (hi : option nat) : bool :=
  match hi with
  | None => true
  | Some h => Nat.ltb n h
  end.

Section Engine.

Variable U : unicode.

(** [s.strip()] *)
Definition strip (s : str) : str := strip_by (isspace U) s.

Definition in_item (it : citem) (c : char) : bool :=
  match it with
  | CChar x => N.eqb c x
  | CRange lo hi => N.leb lo c && N.leb c hi
  | CWord => isword U c
  | CSpace => isspace U c
  | CDigit => isdigit U c
  end.

(** Under re.IGNORECASE a character matches a literal or a range when one
    of its case variants does. *)
Definition item_match (icase : bool) (it : citem) (c : char) : bool :=
  in_item it c ||
  (icase && match it with
            | CChar _ | CRange _ _ => existsb (in_item it) (case_variants U c)
            | _ => false
            end).

Definition class_match (icase : bool) (items : list citem) (c : char) : bool :=
  existsb (fun it => item_match icase it c) items.

Definition word_before (prev : option char) : bool :=
  match prev with Some c => isword U c | None => false end.

Definition word_after (s : str) : bool :=
  match s with c :: _ => isword U c | [] => false end.

(** A position of the subject: the character before it ([None] at the start
    of the string) and the rest of the string. *)
Definition answer := option (option char * str * caps).

(** The backtracking matcher, in continuation-passing style: [k] is what
    remains to be matched after [r].  Alternatives are tried left to right
    and a greedy repetition tries one more iteration before stopping, so
    the first answer is the one [re] returns.  Every repeated sub-pattern
    of this program consumes at least one character per iteration, so an
    iteration is required to advance. *)
Fixpoint mt (icase : bool) (r : regex) (prev : option char) (s : str)
  (cs : caps) (k : option char -> str -> caps -> answer) {struct r} : answer :=
  match r with
  | Eps => k prev s cs
  | Chr items =>
      match s with
      | c :: s' => if class_match icase items c then k (Some c) s' cs else None
      | [] => None
      end
  | Dot =>
      match s with
      | c :: s' => if N.eqb c nl then None else k (Some c) s' cs
      | [] => None
      end
  | Seq a b => mt icase a prev s cs (fun p' s' c' => mt icase b p' s' c' k)
  | Alt a b =>
      orelse (mt icase a prev s cs k) (fun _ => mt icase b prev s cs k)
  | Rep r' lo hi greedy =>
      (fix loop (fuel n : nat) (prev : option char) (s : str) (cs : caps)
         {struct fuel} : answer :=
         let more (_ : unit) : answer :=
           match fuel with
           | 0 => None
           | S fuel' =>
               if below n hi then
                 mt icase r' prev s cs (fun p' s' c' =>
                   if Nat.ltb (length s') (length s)
                   then loop fuel' (S n) p' s' c'
                   else None)
               else None
           end in
         let stop (_ : unit) : answer :=
           if Nat.leb lo n then k prev s cs else None in
         if greedy then orelse (more tt) stop else orelse (stop tt) more)
      (length s) 0 prev s cs
  | Grp i r' =>
      mt icase r' prev s cs (fun p' s' c' =>
        k p' s' ((i, firstn (length s - length s') s) :: c'))
  | Look r' =>
      match mt icase r' prev s cs (fun p' s' c' => Some (p', s', c')) with
      | Some (_, _, c') => k prev s c'
      | None => None
      end
  | WordB =>
      if xorb (word_before prev) (word_after s) then k prev s cs else None
  | Bos => match prev with None => k prev s cs | Some _ => None end
  | Eos =>
      match s with
      | [] => k prev s cs
      | [c] => if N.eqb c nl then k prev s cs else None
      | _ => None
      end
  end.

(** A match object. [m_skipped] is the text between the position the
    search started from and the start of the match. *)
Record mobj := {
  m_skipped : str;
  m_text : str;               (* group(0) *)
  m_rest : str;               (* the subject after the match *)
  m_prev : option char;       (* the character before [m_rest] *)
  m_caps : caps
}.

Definition group (m : mobj) (i : nat) : option str := get_group (m_caps m) i.

(** Match at the current position.  [must_advance] refuses an empty match
    (set by split and findall after an empty match). *)
Definition match_here (icase : bool) (r : regex) (must_advance : bool)
  (prev : option char) (s : str) : answer :=
  mt icase r prev s [] (fun p' s' c' =>
    if must_advance && Nat.eqb (length s') (length s) then None
    else Some (p', s', c')).

(** The leftmost match at or after the current position. *)
Fixpoint search_from (icase : bool) (r : regex) (must_advance : bool)
  (skipped : str) (prev : option char) (s : str) : option mobj :=
  match match_here icase r must_advance prev s with
  | Some (p', s', c') =>
      Some {| m_skipped := skipped;
              m_text := firstn (length s - length s') s;
              m_rest := s'; m_prev := p'; m_caps := c' |}
  | None =>
      match s with
      | [] => None
      | c :: s' => search_from icase r false (skipped ++ [c]) (Some c) s'
      end
  end.

(** [re.search(r, s)] *)
Definition re_search (icase : bool) (r : regex) (s : str) : option mobj :=
  search_from icase r false [] None s.

(** [re.split(r, s)]: the pieces between the matches, each match followed
    by the text of every capturing group of the pattern, [None] for a group
    that took no part in the match. *)
Fixpoint split_loop (fuel : nat) (icase : bool) (r : regex)
  (must_advance : bool) (prev : option char) (s : str) : list (option str) :=
  match fuel with
  | 0 => [Some s]
  | S fuel' =>
      match search_from icase r must_advance [] prev s with
      | None => [Some s]
      | Some m =>
          Some (m_skipped m)
            :: map (group m) (seq 1 (ngroups r))
            ++ split_loop fuel' icase r (negb (nonempty (m_text m)))
                 (m_prev m) (m_rest m)
      end
  end.

Definition re_split (icase : bool) (r : regex) (s : str) : list (option str) :=
  split_loop (2 * length s + 2) icase r false None s.

(** [re.findall(r, s)] for a pattern with exactly one group: the text of
    group 1 of every match, the empty string when it took no part. *)
Fixpoint findall_loop (fuel : nat) (icase : bool) (r : regex)
  (must_advance : bool) (prev : option char) (s : str) : list str :=
  match fuel with
  | 0 => []
  | S fuel' =>
      match search_from icase r must_advance [] prev s with
      | None => []
      | Some m =>
          match group m 1 with Some g => g | None => [] end
            :: findall_loop fuel' icase r (negb (nonempty (m_text m)))
                 (m_prev m) (m_rest m)
      end
  end.

Definition re_findall1 (icase : bool) (r : regex) (s : str) : list str :=
  findall_loop (2 * length s + 2) icase r false None s.

End Engine.

(** ** Building patterns *)

Definition chr (c : char) : regex := Chr [CChar c].

(** A string matched literally: what [re.escape] makes of it. *)
Definition lit_str (s : str) : regex :=
  fold_right (fun c r => Seq (chr c) r) Eps s.

Definition lit (s : string) : regex := lit_str (py s).

(** A degree indicator spliced into a pattern as it is: its dots are the
    regex dot. *)
Definition indicator_pattern (s : str) : regex :=
  fold_right (fun c r => Seq (if N.eqb c (ch ".") then Dot else chr c) r) Eps s.

Fixpoint alts (rs : list regex) : regex :=
  match rs with
  | [] => Eps
  | [r] => r
  | r :: rs' => Alt r (alts rs')
  end.

Fixpoint seqs (rs : list regex) : regex :=
  match rs with
  | [] => Eps
  | [r] => r
  | r :: rs' => Seq r (seqs rs')
  end.

Definition star (r : regex) : regex := Rep r 0 None true.
Definition plus (r : regex) : regex := Rep r 1 None true.
Definition opt (r : regex) : regex := Rep r 0 (Some 1) true.
Definition lazy_star (r : regex) : regex := Rep r 0 None false.
Definition times (n : nat) (r : regex) : regex := Rep r n (Some n) true.

Definition digit : regex := Chr [CDigit].
Definition space : regex := Chr [CSpace].
Definition word_or_space : regex := Chr [CWord; CSpace].
Definition az : citem := CRange (ch "a") (ch "z").
Definition AZ : citem := CRange (ch "A") (ch "Z").
Definition d09 : citem := CRange (ch "0") (ch "9").

(** ** The patterns of [main.py] *)

(** ['bachelor', 'master', ..., 'b.a', 'm.a'] *)
Definition degree_indicators : list str :=
  map py ["bachelor"; "master"; "phd"; "b.tech"; "m.tech"; "b.e"; "m.e";
          "mba"; "b.sc"; "m.sc"; "b.com"; "m.com"; "b.a"; "m.a"]%string.

(** r'\n(?=\d{4}|\b(?:' + '|'.join(degree_indicators) + r')\b)' *)
Definition education_split_pattern : regex :=
  Seq (chr nl)
      (Look (Alt (times 4 digit)
                 (seqs [WordB; alts (map indicator_pattern degree_indicators);
                        WordB]))).

(** r'\b' + indicator + r'[s]?\b.*?(?:\n|$)' *)
Definition degree_pattern (indicator : str) : regex :=
  seqs [WordB; indicator_pattern indicator; opt (Chr [CChar (ch "s")]); WordB;
        lazy_star Dot; Alt (chr nl) Eos].

Definition institution_words : regex :=
  alts [lit "university"; lit "college"; lit "institute"; lit "school"].

(** r'\b(?:university|college|institute|school) of [\w\s]+' and
    r'[\w\s]+ (?:university|college|institute|school)\b' *)
Definition institution_patterns : list regex :=
  [ seqs [WordB; institution_words; lit " of "; plus word_or_space];
    seqs [plus word_or_space; lit " "; institution_words; WordB] ].

Definition year20 : regex := seqs [WordB; lit "20"; times 2 digit; WordB].
Definition year19 : regex := seqs [WordB; lit "19"; times 2 digit; WordB].

(** r'(\b20\d{2}\b|\b19\d{2}\b)(?:\s*-\s*(?:\b20\d{2}\b|\b19\d{2}\b|present|current|now))?' *)
Definition year_pattern : regex :=
  Seq (Grp 1 (Alt year20 year19))
      (opt (seqs [star space; lit "-"; star space;
                  alts [year20; year19; lit "present"; lit "current";
                        lit "now"]])).

Definition months : regex :=
  alts (map lit ["jan"; "feb"; "mar"; "apr"; "may"; "jun"; "jul"; "aug";
                 "sep"; "oct"; "nov"; "dec"]%string).

(** The class of the three dashes: hyphen, en dash (U+2013), em dash
    (U+2014). *)
Definition dash : regex := Chr [CChar (ch "-"); CChar 8211%N; CChar 8212%N].

(** The date-range pattern, written twice in [extract_experience]: with
    capturing groups around the months and around present|current|now
    ([date_pattern]) and with non-capturing ones ([duration_pattern]).
    [g] is the group constructor.

    \b(months)[a-z]* \d{4}\s*DASH\s*(months)[a-z]* \d{4}
    |\b\d{4}\s*DASH\s*\d{4}
    |\b\d{4}\s*DASH\s*(present|current|now)\b *)
Definition date_range (g : nat -> regex -> regex) : regex :=
  alts
    [ seqs [WordB; g 1 months; star (Chr [az]); lit " "; times 4 digit;
            star space; dash; star space;
            g 2 months; star (Chr [az]); lit " "; times 4 digit];
      seqs [WordB; times 4 digit; star space; dash; star space;
            times 4 digit];
      seqs [WordB; times 4 digit; star space; dash; star space;
            g 3 (alts [lit "present"; lit "current"; lit "now"]); WordB] ].

Definition date_pattern : regex := date_range Grp.
Definition duration_pattern : regex := date_range (fun _ r => r).

(** r'\n(?=.*\b(?:19|20)\d{2}\b)' *)
Definition year_line_split_pattern : regex :=
  Seq (chr nl)
      (Look (seqs [star Dot; WordB; Alt (lit "19") (lit "20"); times 2 digit;
                   WordB])).

(** r'^([A-Z][A-Za-z\s]{2,30}(?:Developer|Engineer|...|Intern))' *)
Definition title_pattern : regex :=
  Seq Bos
      (Grp 1 (seqs [Chr [AZ]; Rep (Chr [AZ; az; CSpace]) 2 (Some 30) true;
                    alts (map lit ["Developer"; "Engineer"; "Manager";
                                   "Designer"; "Analyst"; "Consultant";
                                   "Director"; "Lead"; "Architect";
                                   "Specialist"; "Intern"]%string)])).

(** r'(?:at|with|for) ([\w\s]+)', r'^([\w\s]+) (?:Inc\.|LLC|Ltd\.)',
    r'^([\w\s,]+)(?:\n|$)' *)
Definition company_patterns : list regex :=
  [ seqs [alts [lit "at"; lit "with"; lit "for"]; lit " ";
          Grp 1 (plus word_or_space)];
    seqs [Bos; Grp 1 (plus word_or_space); lit " ";
          alts [lit "Inc."; lit "LLC"; lit "Ltd."]];
    seqs [Bos; Grp 1 (plus (Chr [CWord; CSpace; CChar (ch ",")]));
          Alt (chr nl) Eos] ].

(** r'\n(?=BULLET|\*|\-|\d+\.|\d+\)|\w+:)' ; the bullet is U+2022 *)
Definition projects_split_pattern : regex :=
  Seq (chr nl)
      (Look (alts [chr 8226%N; lit "*"; lit "-";
                   Seq (plus digit) (lit "."); Seq (plus digit) (lit ")");
                   Seq (plus (Chr [CWord])) (lit ":")])).

(** r'[a-zA-Z0-9._%+-]+@[a-zA-Z0-9.-]+\.[a-zA-Z]{2,}' *)
Definition email_pattern : regex :=
  seqs [plus (Chr [az; AZ; d09; CChar (ch "."); CChar (ch "_");
                   CChar (ch "%"); CChar (ch "+"); CChar (ch "-")]);
        lit "@";
        plus (Chr [az; AZ; d09; CChar (ch "."); CChar (ch "-")]);
        lit "."; Rep (Chr [az; AZ]) 2 None true].

Definition phone_sep : regex :=
  opt (Chr [CChar (ch "-"); CChar (ch "."); CSpace]).

(** r'(\+\d{1,3}[-.\s]?)?(\(?\d{3}\)?[-.\s]?\d{3}[-.\s]?\d{4})' *)
Definition phone_pattern : regex :=
  Seq (opt (Grp 1 (seqs [lit "+"; Rep digit 1 (Some 3) true; phone_sep])))
      (Grp 2 (seqs [opt (lit "("); times 3 digit; opt (lit ")"); phone_sep;
                    times 3 digit; phone_sep; times 4 digit])).

(** r'\b' + re.escape(skill) + r'\b' *)
Definition skill_pattern (skill : str) : regex :=
  Seq WordB (Seq (lit_str skill) WordB).

Definition skill_keywords : list str :=
  map py
    ["python"; "javascript"; "react"; "angular"; "vue"; "node.js"; "express";
     "mongodb"; "sql"; "mysql"; "postgresql"; "nosql"; "firebase"; "aws";
     "azure"; "gcp"; "docker"; "kubernetes"; "ci/cd"; "jenkins"; "git";
     "github"; "gitlab"; "html"; "css"; "sass"; "less"; "bootstrap";
     "tailwind"; "typescript"; "java"; "c++"; "c#"; ".net"; "php"; "ruby";
     "go"; "rust"; "swift"; "android"; "ios"; "flutter"; "react native";
     "electron"; "machine learning"; "deep learning"; "ai"; "data science";
     "data analysis"; "tensorflow"; "pytorch"; "keras"; "scikit-learn";
     "pandas"; "numpy"; "agile"; "scrum"; "kanban"; "jira"; "confluence";
     "communication"; "leadership"; "project management"; "team work";
     "problem solving"; "critical thinking"; "time management"]%string.

(** ** Records of the result *)

Record EducationRecord := {
  degree : str; institution : str; year : str
}.

Record ExperienceRecord := {
  title : str; company : str; duration : str
}.

Record ProjectRecord := {
  proj_name : str; proj_description : str
}.

Record ParsedResume := {
  name : option str;
  email : option str;
  phone : option str;
  skills : list str;
  education : list EducationRecord;
  experience : list ExperienceRecord;
  projects : list ProjectRecord
}.

(** ** Section kinds: header keywords and end markers *)

Inductive SectionKind := Education | Experience | Projects.

(** [education_indicators], [experience_indicators], [project_indicators] *)
Definition indicators (k : SectionKind) : list str :=
  match k with
  | Education =>
      map py ["education"; "academic"; "degree"; "university"; "college";
              "school"; "institute"]%string
  | Experience =>
      map py ["experience"; "employment"; "work history";
              "professional experience"; "career"]%string
  | Projects =>
      map py ["projects"; "personal projects"; "academic projects"]%string
  end.

(** The keyword lists of the three "end of section" tests. *)
Definition end_markers (k : SectionKind) : list str :=
  match k with
  | Education =>
      map py ["experience"; "work"; "employment"; "professional"; "projects";
              "skills"]%string
  | Experience =>
      map py ["education"; "projects"; "skills"; "certifications"]%string
  | Projects =>
      map py ["experience"; "education"; "skills"; "certifications"]%string
  end.

(** The state of the line loop.  [in_section] and [section_text] are the
    two variables of the source; [taken] records the index [i] of every
    line appended to [section_text] and [stopped] the index at which the
    loop left through [break]. *)
Record scan_state := {
  in_section : bool;
  section_text : str;
  taken : list nat;
  stopped : option nat
}.

Definition scan_init : scan_state :=
  {| in_section := false; section_text := []; taken := []; stopped := None |}.

(** [section_text += line + "\n"], entering the section when [enter]. *)
Definition append_line (enter : bool) (st : scan_state) (i : nat) (line : str)
  : scan_state :=
  {| in_section := enter || in_section st;
     section_text := section_text st ++ line ++ [nl];
     taken := taken st ++ [i];
     stopped := stopped st |}.

Definition close_at (st : scan_state) (i : nat) : scan_state :=
  {| in_section := false;
     section_text := section_text st;
     taken := taken st;
     stopped := Some i |}.

Inductive step_outcome :=
| Next (st : scan_state)       (* go on with the next line *)
| Break (st : scan_state).     (* leave the loop *)

Section Extraction.

Variable U : unicode.

(** The header test: a keyword of the kind occurs in the lowered, stripped
    line and that line is shorter than 30. *)
Definition is_header (k : SectionKind) (line_lower : str) : bool :=
  any_in (indicators k) line_lower && Nat.ltb (length line_lower) 30.

(** The end test on a line that is not a header. *)
Definition is_end (k : SectionKind) (line_lower : str) : bool :=
  nonempty line_lower && Nat.ltb (length line_lower) 30
  && any_in (end_markers k) line_lower.

(** One iteration of [for i, line in enumerate(lines)]. *)
Definition scan_step (k : SectionKind) (st : scan_state) (i : nat)
  (line : str) : step_outcome :=
  let line_lower := strip U (lower U line) in
  if is_header k line_lower then Next (append_line true st i line)
  else if in_section st && is_end k line_lower then Break (close_at st i)
  else if in_section st && nonempty (strip U line)
       then Next (append_line false st i line)
       else Next st.

Fixpoint scan_lines (k : SectionKind) (st : scan_state) (i : nat)
  (lines : list str) : scan_state :=
  match lines with
  | [] => st
  | line :: rest =>
      match scan_step k st i line with
      | Next st' => scan_lines k st' (S i) rest
      | Break st' => st'
      end
  end.

Definition scan (k : SectionKind) (text : str) : scan_state :=
  scan_lines k scan_init 0 (split_on nl text).

(** The raw text of the section of a kind. *)
Definition section_of (k : SectionKind) (text : str) : str :=
  section_text (scan k text).

(** An item of the list [re.split] returns is [None] where a capturing
    group took no part in the match; [None] has no [strip], so
    [entry.strip()] raises AttributeError on it. *)

(** [for p in pats: m = re.search(p, s); if m: ...; break] *)
Fixpoint first_search (icase : bool) (pats : list regex) (s : str)
  : option mobj :=
  match pats with
  | [] => None
  | p :: pats' =>
      match re_search U icase p s with
      | Some m => Some m
      | None => first_search icase pats' s
      end
  end.

(** *** extract_education *)

Definition education_entry (entry : option str)
  (education : list EducationRecord) : result (list EducationRecord) :=
  match entry with
  | None => Raise AttributeError          (* entry.strip() *)
  | Some e =>
      if Nat.ltb (length (strip U e)) 10 then Ok education
      else
        let degree :=
          option_map (fun m => strip U (m_text m))
            (first_search true (map degree_pattern degree_indicators) e) in
        let institution :=
          option_map (fun m => strip U (m_text m))
            (first_search true institution_patterns e) in
        let year := option_map m_text (re_search U true year_pattern e) in
        if truthy degree || truthy institution then
          Ok (education ++
              [{| degree := py_or degree (py "Degree not specified");
                  institution :=
                    py_or institution (py "Institution not specified");
                  year := py_or year (py "Year not specified") |}])
        else Ok education
  end.

Definition extract_education (text : str) : result (list EducationRecord) :=
  let education_section_text := section_of Education text in
  if nonempty education_section_text then
    for_each (re_split U false education_split_pattern education_section_text)
             [] education_entry
  else Ok [].

(** *** extract_experience *)

Definition experience_labels : list str :=
  map py ["experience"; "work experience"; "employment history"]%string.

(** The company: the first pattern that matches gives [group(1).strip()]. *)
Definition find_company (e : str) : result (option str) :=
  match first_search false company_patterns e with
  | None => Ok None
  | Some m =>
      match group m 1 with
      | Some g => Ok (Some (strip U g))
      | None => Raise AttributeError
      end
  end.

Definition experience_entry (entry : option str)
  (experience : list ExperienceRecord) : result (list ExperienceRecord) :=
  match entry with
  | None => Raise AttributeError          (* entry.strip() *)
  | Some e =>
      if Nat.ltb (length (strip U e)) 15
         || str_mem (lower U (strip U e)) experience_labels
      then Ok experience
      else
        let title :=
          match re_findall1 U false title_pattern e with
          | [] => None
          | t :: _ => Some (strip U t)
          end in
        bind (find_company e) (fun company =>
        let duration :=
          option_map m_text (re_search U true duration_pattern e) in
        if truthy title || truthy company then
          Ok (experience ++
              [{| title := py_or title (py "Position not specified");
                  company := py_or company (py "Company not specified");
                  duration := py_or duration (py "Duration not specified") |}])
        else Ok experience)
  end.

(** The entries of an experience section: split at the date ranges, and,
    when that gave a single piece, before the lines that hold a year. *)
Definition experience_entries (experience_section_text : str)
  : list (option str) :=
  let entries := re_split U true date_pattern experience_section_text in
  if Nat.leb (length entries) 1
  then re_split U false year_line_split_pattern experience_section_text
  else entries.

Definition extract_experience (text : str) : result (list ExperienceRecord) :=
  let experience_section_text := section_of Experience text in
  if nonempty experience_section_text then
    for_each (experience_entries experience_section_text) [] experience_entry
  else Ok [].

(** *** extract_projects *)

Definition project_labels : list str :=
  map py ["projects"; "personal projects"; "academic projects"]%string.

(** The characters of [strip('BULLET*-\t .)')]; the bullet is U+2022. *)
Definition bullet_chars : str :=
  [8226%N; ch "*"; ch "-"; 9%N; ch " "; ch "."; ch ")"].

Definition project_entry (entry : option str) (projects : list ProjectRecord)
  : result (list ProjectRecord) :=
  match entry with
  | None => Raise AttributeError          (* entry.strip() *)
  | Some e =>
      let entry := strip U e in
      if Nat.ltb (length entry) 15 || str_mem (lower U entry) project_labels
      then Ok projects
      else
        let lines := split_on nl entry in
        let name := strip_chars bullet_chars (hd [] lines) in
        let description :=
          if Nat.ltb 1 (length lines) then strip U (join nl (tl lines))
          else [] in
        if nonempty name then
          Ok (projects ++
              [{| proj_name := name; proj_description := description |}])
        else Ok projects
  end.

Definition extract_projects (text : str) : result (list ProjectRecord) :=
  let project_section_text := section_of Projects text in
  if nonempty project_section_text then
    for_each (re_split U false projects_split_pattern project_section_text)
             [] project_entry
  else Ok [].

(** *** extract_name, extract_email, extract_phone, extract_skills *)

Definition name_stop_words : list str :=
  map py ["@"; "http"; "resume"; "cv"; "email"; "phone"]%string.

(** The test of [extract_name] on one line. *)
Definition name_line (line : str) : bool :=
  Nat.ltb 5 (length line) && Nat.ltb (length line) 40
  && negb (any_in name_stop_words (lower U line)).

Fixpoint first_name_line (lines : list str) : option str :=
  match lines with
  | [] => None
  | line :: rest =>
      if name_line line then Some (strip U line) else first_name_line rest
  end.

Definition extract_name (text : str) : option str :=
  first_name_line (firstn 5 (split_on nl text)).

Definition extract_email (text : str) : option str :=
  option_map m_text (re_search U false email_pattern text).

Definition extract_phone (text : str) : option str :=
  option_map m_text (re_search U false phone_pattern text).

Definition skill_found (text : str) (skill : str) : bool :=
  match re_search U false (skill_pattern skill) (lower U text) with
  | Some _ => true
  | None => false
  end.

Definition extract_skills (text : str) : list str :=
  fold_left (fun found_skills skill =>
               if skill_found text skill then found_skills ++ [skill]
               else found_skills)
            skill_keywords [].

(** *** The extraction step of [parse_resume]: the seven extractors in the
    order of the source, then the result record. *)
Definition parse_resume_extract (text : str) : result ParsedResume :=
  let name := extract_name text in
  let email := extract_email text in
  let phone := extract_phone text in
  let skills := extract_skills text in
  bind (extract_education text) (fun education =>
  bind (extract_experience text) (fun experience =>
  bind (extract_projects text) (fun projects =>
  Ok {| name := name; email := email; phone := phone; skills := skills;
        education := education; experience := experience;
        projects := projects |}))).

End Extraction.

(** ** The ASCII part of the Unicode tables *)

Definition between (lo hi c : N) : bool := N.leb lo c && N.leb c hi.

(** Whitespace below 128: tab, newline, VT, FF, CR, FS, GS, RS, US, space. *)
Definition ascii_isspace (c : char) : bool :=
  between 9 13 c || between 28 32 c.

Definition ascii_isdigit (c : char) : bool := between 48 57 c.

Definition ascii_isword (c : char) : bool :=
  between 48 57 c || between 65 90 c || between 97 122 c || N.eqb c 95.

Definition ascii_lower_char (c : char) : char :=
  if between 65 90 c then (c + 32)%N else c.

Definition ascii_case_variants (c : char) : list char :=
  if between 65 90 c then [c; (c + 32)%N]
  else if between 97 122 c then [c; (c - 32)%N]
  else [c].

Definition ascii_tables : unicode :=
  {| isspace := ascii_isspace;
     isword := ascii_isword;
     isdigit := ascii_isdigit;
     lower := map ascii_lower_char;
     case_variants := ascii_case_variants |}.

(** ** Documents used below *)

Definition doc (lines : list string) : str := join nl (map py lines).

(** "Jane Smith\njane.smith@mail.com\n555-222-3344\n\nEducation\n
    BS Computer Science\nState University\n2019\n\nExperience\n
    Software Engineer at Acme Corp\n2020 - Present\n" *)
Definition jane : str :=
  doc ["Jane Smith"; "jane.smith@mail.com"; "555-222-3344"; "";
       "Education"; "BS Computer Science"; "State University"; "2019"; "";
       "Experience"; "Software Engineer at Acme Corp"; "2020 - Present";
       ""]%string.

(** ** Statements of the specification, for comparison with the code *)

(** "The raw spans assigned to Education, Experience and Projects never
    overlap in original line positions." *)
Definition sections_pairwise_disjoint (U : unicode) (text : str) : Prop :=
  forall A B i, A <> B ->
    In i (taken (scan U A text)) -> In i (taken (scan U B text)) -> False.

(** "While a section of kind A is open, any non-empty line with trimmed
    length under 30 that contains a header keyword of a different kind
    closes A's section." *)
Definition other_kind_header_closes (U : unicode) : Prop :=
  forall A B text pre line post,
    A <> B ->
    split_on nl text = pre ++ line :: post ->
    in_section (scan_lines U A scan_init 0 pre) = true ->
    nonempty (strip U (lower U line)) = true ->
    length (strip U (lower U line)) < 30 ->
    any_in (indicators B) (strip U (lower U line)) = true ->
    stopped (scan U A text) = Some (length pre) /\
    ~ In (length pre) (taken (scan U A text)).

(** "The first line, among the first 5, whose trimmed length is strictly
    between 5 and 40 and which contains none of the stop words
    (case-insensitive); else null." *)
Definition spec_name_line (U : unicode) (line : str) : bool :=
  Nat.ltb 5 (length (strip U line)) && Nat.ltb (length (strip U line)) 40
  && negb (any_in name_stop_words (lower U line)).

Definition spec_extract_name (U : unicode) (text : str) : option str :=
  option_map (strip U)
    (find (spec_name_line U) (firstn 5 (split_on nl text))).

(** What [extract_name] tests on a line: the length of the line as it is. *)
Definition name_candidate (U : unicode) (line : str) : Prop :=
  5 < length line < 40 /\
  forall w, In w name_stop_words -> contains w (lower U line) = false.

(** The scenario of the specification on the document [jane]. *)
Definition jane_scenario (U : unicode) : Prop :=
  extract_name U jane = Some (py "Jane Smith") /\
  extract_email U jane = Some (py "jane.smith@mail.com") /\
  extract_phone U jane = Some (py "555-222-3344") /\
  (exists r, extract_education U jane = Ok [r] /\
             contains (py "2019") (year r) = true) /\
  (exists e, extract_experience U jane = Ok [e] /\
             contains (py "Acme") (company e) = true /\
             contains (py "2020") (duration e) = true /\
             contains (py "Present") (duration e) = true).

(** A word-bounded occurrence of [w] in [t]: [t = a ++ w ++ b] with a word
    boundary on each side of [w].  There is a boundary between two
    positions when exactly one of the characters next to it is a word
    character; the ends of the string count as non-word. *)
Definition last_char (prev : option char) (s : str) : option char :=
  match rev s with
  | c :: _ => Some c
  | [] => prev
  end.

Definition boundary (U : unicode) (prev : option char) (s : str) : bool :=
  xorb (word_before U prev) (word_after U s).

Definition occurs_word_bounded (U : unicode) (w t : str) : Prop :=
  exists a b, t = a ++ w ++ b /\
    boundary U (last_char None a) (w ++ b) = true /\
    boundary U (last_char None (a ++ w)) b = true.

Definition edu_complete (r : EducationRecord) : Prop :=
  degree r <> [] /\ institution r <> [] /\ year r <> [].

Definition exp_complete (r : ExperienceRecord) : Prop :=
  title r <> [] /\ company r <> [] /\ duration r <> [].

(** ** What a pattern matches, and which groups a match sets *)

(** Groups that a match of the pattern may set, and groups that every match
    of the pattern sets. *)
Fixpoint may_set (r : regex) (i : nat) : bool :=
  match r with
  | Seq a b | Alt a b => may_set a i || may_set b i
  | Rep r' _ _ _ | Look r' => may_set r' i
  | Grp j r' => Nat.eqb i j || may_set r' i
  | _ => false
  end.

Fixpoint must_set (r : regex) (i : nat) : bool :=
  match r with
  | Seq a b => must_set a i || must_set b i
  | Alt a b => must_set a i && must_set b i
  | Rep r' lo _ _ => Nat.ltb 0 lo && must_set r' i
  | Look r' => must_set r' i
  | Grp j r' => Nat.eqb i j || must_set r' i
  | _ => false
  end.

(** The least number of characters a match of the pattern takes. *)
Fixpoint min_len (r : regex) : nat :=
  match r with
  | Chr _ | Dot => 1
  | Seq a b => min_len a + min_len b
  | Alt a b => Nat.min (min_len a) (min_len b)
  | Rep r' lo _ _ => lo * min_len r'
  | Grp _ r' => min_len r'
  | _ => 0
  end.

(** [den U icase r prev w rest]: the pattern [r] matches the string [w]
    when [w] comes after the character [prev] and before [rest]. *)
Inductive den (U : unicode) (icase : bool)
  : regex -> option char -> str -> str -> Prop :=
| den_eps prev rest : den U icase Eps prev [] rest
| den_chr items c prev rest :
    class_match U icase items c = true ->
    den U icase (Chr items) prev [c] rest
| den_dot c prev rest : c <> nl -> den U icase Dot prev [c] rest
| den_seq a b prev w1 w2 rest :
    den U icase a prev w1 (w2 ++ rest) ->
    den U icase b (last_char prev w1) w2 rest ->
    den U icase (Seq a b) prev (w1 ++ w2) rest
| den_alt_l a b prev w rest :
    den U icase a prev w rest -> den U icase (Alt a b) prev w rest
| den_alt_r a b prev w rest :
    den U icase b prev w rest -> den U icase (Alt a b) prev w rest
| den_rep_stop r hi g prev rest : den U icase (Rep r 0 hi g) prev [] rest
| den_rep_more r lo hi g prev w1 w2 rest :
    w1 <> [] -> below 0 hi = true ->
    den U icase r prev w1 (w2 ++ rest) ->
    den U icase (Rep r (pred lo) (option_map pred hi) g)
        (last_char prev w1) w2 rest ->
    den U icase (Rep r lo hi g) prev (w1 ++ w2) rest
| den_grp i r prev w rest :
    den U icase r prev w rest -> den U icase (Grp i r) prev w rest
| den_look r prev w rest :
    den U icase r prev w rest -> den U icase (Look r) prev [] (w ++ rest)
| den_wordb prev rest :
    boundary U prev rest = true -> den U icase WordB prev [] rest
| den_bos rest : den U icase Bos None [] rest
| den_eos_end prev : den U icase Eos prev [] []
| den_eos_nl prev : den U icase Eos prev [] [nl].

(** What a successful run of the matcher on [r] guarantees about the
    position and the groups its continuation was called with. *)
Definition mt_post (U : unicode) (icase : bool) (r : regex)
  (prev : option char) (s : str) (cs : caps)
  (k : option char -> str -> caps -> answer)
  (res : option char * str * caps) : Prop :=
  exists w s' c',
    s = w ++ s' /\
    k (last_char prev w) s' c' = Some res /\
    den U icase r prev w s' /\
    (forall i, may_set r i = false -> get_group c' i = get_group cs i) /\
    (forall i, must_set r i = true -> get_group c' i <> None) /\
    (forall i, get_group cs i <> None -> get_group c' i <> None).

(** ASCII letters, and the characters of the two classes of the email
    pattern. *)
Definition ascii_letter (c : char) : bool :=
  between 97 122 c || between 65 90 c.

Definition email_local_char (c : char) : bool :=
  between 97 122 c || between 65 90 c || between 48 57 c
  || N.eqb c (ch ".") || N.eqb c (ch "_") || N.eqb c (ch "%")
  || N.eqb c (ch "+") || N.eqb c (ch "-").

Definition email_domain_char (c : char) : bool :=
  between 97 122 c || between 65 90 c || between 48 57 c
  || N.eqb c (ch ".") || N.eqb c (ch "-").

(** A string that neither begins nor ends with a character of [p]. *)
Definition trimmed (p : char -> bool) (s : str) : Prop :=
  (forall c t, s = c :: t -> p c = false) /\
  (forall t c, s = t ++ [c] -> p c = false).

(** The extractor of a section kind. *)
Definition kind_is_empty (U : unicode) (k : SectionKind) (text : str) : Prop :=
  match k with
  | Education => extract_education U text = Ok []
  | Experience => extract_experience U text = Ok []
  | Projects => extract_projects U text = Ok []
  end.

(** ** The service: file type detection and the two endpoints *)

Definition bytes := list N.

(** [file_bytes[:4] == b'%PDF'] *)
Definition is_pdf (file_bytes : bytes) : bool :=
  str_eqb (firstn 4 file_bytes) [37; 80; 68; 70]%N.

(** [file_bytes[:4] == b'PK\x03\x04'] *)
Definition is_docx (file_bytes : bytes) : bool :=
  str_eqb (firstn 4 file_bytes) [80; 75; 3; 4]%N.

(** The exceptions that reach the [except] clauses of the endpoints.
    [HTTPException] is FastAPI's; like every exception of these three
    kinds it is an instance of [Exception]. *)
Inductive py_exception :=
| RequestException (msg : str)                 (* requests.RequestException *)
| HTTPException (status_code : nat) (detail : str)
| OtherException (e : exn).

Inductive outcome (A : Type) :=
| Returned (a : A)
| Raised (e : py_exception).
Arguments Returned {A} a.
Arguments Raised {A} e.

(** What the endpoint reads of the response of [requests.get]. *)
Record response := {
  status : nat;                         (* response.status_code *)
  content : bytes;                      (* response.content *)
  content_type : option str             (* response.headers.get('Content-Type') *)
}.

(** The body of [parse_resume] in the fall-back case of an unknown
    format: the fixed record returned "for testing purposes". *)
Definition dummy_experience : ExperienceRecord :=
  {| title := py "Software Developer"; company := py "Tech Corp";
     duration := py "2020-Present" |}.

Definition dummy_education : EducationRecord :=
  {| degree := py "BS Computer Science";
     institution := py "University of Technology"; year := py "2019" |}.

Inductive parse_response :=
| ParsedData (p : ParsedResume)
| DummyData (name email phone : str) (skills : list str)
            (experience : list ExperienceRecord)
            (education : list EducationRecord).

Definition dummy_data : parse_response :=
  DummyData (py "John Doe") (py "john.doe@example.com") (py "555-123-4567")
            (map py ["Python"; "JavaScript"; "React"; "SQL"]%string)
            [dummy_experience] [dummy_education].

Section Service.

Variable U : unicode.

(** The world outside the program: the download, the two document
    libraries and the text of an exception. *)
Variable requests_get : str -> outcome response.
Variable http_error_message : response -> str.
(** [pdfplumber]: the text of each page ([None] or empty for a page
    without text), or [None] when opening or reading the file raises. *)
Variable pdf_pages : bytes -> option (list (option str)).
(** [docx]: the text of each paragraph, or [None] when it raises. *)
Variable docx_paragraphs : bytes -> option (list str).
(** [str(e)] *)
Variable exc_str : py_exception -> str.

(** [extract_text_from_pdf]: the text of every page that has some, each
    followed by a newline; the empty string when the library raises. *)
Definition extract_text_from_pdf (file_bytes : bytes) : str :=
  match pdf_pages file_bytes with
  | Some pages =>
      fold_left (fun text extracted =>
                   if truthy extracted
                   then text ++ match extracted with
                                | Some e => e
                                | None => []
                                end ++ [nl]
                   else text)
                pages []
  | None => []
  end.

(** [extract_text_from_docx]: the non-empty paragraphs joined by newlines;
    the empty string when the library raises. *)
Definition extract_text_from_docx (file_bytes : bytes) : str :=
  match docx_paragraphs file_bytes with
  | Some paragraphs => join nl (filter nonempty paragraphs)
  | None => []
  end.

(** [response.raise_for_status()] raises an HTTPError, which is a
    RequestException, for a status from 400 to 599. *)
Definition raise_for_status (r : response) : outcome unit :=
  if Nat.leb 400 (status r) && Nat.ltb (status r) 600
  then Raised (RequestException (http_error_message r))
  else Returned tt.

(** The part of [parse_resume] that follows the extraction of the text. *)
Definition parse_text (text : str) : outcome parse_response :=
  if negb (nonempty text) || Nat.ltb (length text) 10 then
    Raised (HTTPException 422 (py "Could not extract text from document"))
  else
    match parse_resume_extract U text with
    | Ok parsed_data => Returned (ParsedData parsed_data)
    | Raise e => Raised (OtherException e)
    end.

(** The [try] block of [parse_resume]. *)
Definition parse_resume_try (url : str) : outcome parse_response :=
  match requests_get url with
  | Raised e => Raised e
  | Returned response =>
      match raise_for_status response with
      | Raised e => Raised e
      | Returned _ =>
          let file_bytes := content response in
          if is_pdf file_bytes then
            parse_text (extract_text_from_pdf file_bytes)
          else if is_docx file_bytes then
            parse_text (extract_text_from_docx file_bytes)
          else
            let content_type :=
              lower U (match content_type response with
                       | Some t => t
                       | None => []
                       end) in
            if contains (py "pdf") content_type then
              parse_text (extract_text_from_pdf file_bytes)
            else if contains (py "word") content_type
                    || contains (py "docx") content_type then
              parse_text (extract_text_from_docx file_bytes)
            else Returned dummy_data
      end
  end.

(** [parse_resume]: the [try] block under its two [except] clauses,
    [requests.RequestException] first and then [Exception]. *)
Definition parse_resume (url : str) : outcome parse_response :=
  match parse_resume_try url with
  | Returned r => Returned r
  | Raised (RequestException msg) =>
      Raised (HTTPException 400
                (py "Error downloading file: "
                 ++ exc_str (RequestException msg)))
  | Raised e =>
      Raised (HTTPException 500 (py "Error parsing resume: " ++ exc_str e))
  end.

(** The [try] block of [view_resume]. *)
Definition view_resume_try (url : str) : outcome str :=
  match requests_get url with
  | Raised e => Raised e
  | Returned response =>
      if negb (Nat.eqb (status response) 200) then
        Raised (HTTPException 400 (py "Could not fetch resume from URL"))
      else
        let file_bytes := content response in
        let check (extracted_text : str) : outcome str :=
          if negb (nonempty (strip U extracted_text)) then
            Raised (HTTPException 422
                      (py "Could not extract text from the resume"))
          else Returned extracted_text in
        if is_pdf file_bytes then check (extract_text_from_pdf file_bytes)
        else if is_docx file_bytes then
          check (extract_text_from_docx file_bytes)
        else Raised (HTTPException 415 (py "Unsupported file format"))
  end.

(** [view_resume]: the [try] block under [except Exception]. *)
Definition view_resume (url : str) : outcome str :=
  match view_resume_try url with
  | Returned text => Returned text
  | Raised e =>
      Raised (HTTPException 500 (py "Resume viewer error: " ++ exc_str e))
  end.

End Service.

(** A sample world for running the endpoints: every URL answers with the
    given response, the PDF library finds the given pages, and the DOCX
    library fails. *)
Definition sample_get (r : response) (url : str) : outcome response :=
  Returned r.

(** A number in decimal digits. *)
Definition decimal (n : nat) : str :=
  py (NilEmpty.string_of_uint (Nat.to_uint n)).

(** [str(e)]: the message of a RequestException, "<status>: <detail>" for
    an HTTPException, and for the AttributeError of [entry.strip()] on
    [None] the message of the interpreter. *)
Definition sample_str (e : py_exception) : str :=
  match e with
  | RequestException msg => msg
  | HTTPException status_code detail =>
      decimal status_code ++ py ": " ++ detail
  | OtherException AttributeError =>
      py "'NoneType' object has no attribute 'strip'"
  end.

Definition pdf_response : response :=
  {| status := 200; content := [37; 80; 68; 70; 45; 49]%N;
     content_type := Some (py "application/pdf") |}.

Definition html_response : response :=
  {| status := 200; content := py "<html></html>";
     content_type := Some (py "text/html") |}.

(** The loop of [mt] on a repetition, under a name of its own. *)
Definition rep_loop (U : unicode) (icase : bool) (r' : regex) (lo : nat)
  (hi : option nat) (greedy : bool)
  (k : option char -> str -> caps -> answer)
  : nat -> nat -> option char -> str -> caps -> answer :=
  fix loop (fuel n : nat) (prev : option char) (s : str) (cs : caps)
    {struct fuel} : answer :=
    let more (_ : unit) : answer :=
      match fuel with
      | 0 => None
      | S fuel' =>
          if below n hi then
            mt U icase r' prev s cs (fun p' s' c' =>
              if Nat.ltb (length s') (length s)
              then loop fuel' (S n) p' s' c'
              else None)
          else None
      end in
    let stop (_ : unit) : answer :=
      if Nat.leb lo n then k prev s cs else None in
    if greedy then orelse (more tt) stop else orelse (stop tt) more.

(** The pattern without its capturing groups. *)
Fixpoint strip_groups (r : regex) : regex :=
  match r with
  | Seq a b => Seq (strip_groups a) (strip_groups b)
  | Alt a b => Alt (strip_groups a) (strip_groups b)
  | Rep r' lo hi g => Rep (strip_groups r') lo hi g
  | Grp _ r' => strip_groups r'
  | Look r' => Look (strip_groups r')
  | _ => r
  end.

(** Patterns that look at their surroundings through \b only. *)
Fixpoint local_pattern (r : regex) : bool :=
  match r with
  | Seq a b | Alt a b => local_pattern a && local_pattern b
  | Rep r' _ _ _ | Grp _ r' => local_pattern r'
  | Look _ | Bos | Eos => false
  | _ => true
  end.

(** The separators the phone pattern allows between the groups of digits:
    hyphen, dot or whitespace. *)
Definition phone_sep_char (U : unicode) (c : char) : bool :=
  N.eqb c (ch "-") || N.eqb c (ch ".") || isspace U c.

(** * Properties *)

(** ** Python strings *)

Lemma nonempty_true (s : str) : nonempty s = true <-> s <> [].
Proof.
  destruct s; simpl; split; intro H; congruence.
Qed.

Lemma py_or_nonempty (o : option str) (default : str) :
  default <> [] -> py_or o default <> [].
Proof.
  intro Hd. unfold py_or.
  destruct o as [s|]; simpl; [|exact Hd].
  destruct s; simpl; [exact Hd | discriminate].
Qed.

Lemma split_on_nonempty (sep : char) (s : str) : split_on sep s <> [].
Proof.
  induction s as [|c s IH]; simpl; [discriminate|].
  destruct (N.eqb c sep); [discriminate|].
  destruct (split_on sep s); [contradiction | discriminate].
Qed.

(** ** The [for] loop over the entries *)

Lemma for_each_invariant {A B} (P : B -> Prop) (body : A -> B -> result B) :
  (forall x acc acc', P acc -> body x acc = Ok acc' -> P acc') ->
  forall xs acc r, P acc -> for_each xs acc body = Ok r -> P r.
Proof.
  intros Hbody xs.
  induction xs as [|x xs IH]; intros acc r Hacc Hrun; simpl in Hrun.
  - injection Hrun as <-. exact Hacc.
  - destruct (body x acc) as [acc'|e] eqn:Hx; simpl in Hrun; [|discriminate].
    eapply IH; [|exact Hrun]. eapply Hbody; eauto.
Qed.

Lemma for_each_total {A B} (Q : A -> Prop) (body : A -> B -> result B) :
  (forall x acc, Q x -> exists acc', body x acc = Ok acc') ->
  forall xs acc, Forall Q xs -> exists r, for_each xs acc body = Ok r.
Proof.
  intros Hbody xs.
  induction xs as [|x xs IH]; intros acc Hall; simpl.
  - eauto.
  - inversion Hall as [|? ? Hx Hxs]; subst.
    destruct (Hbody x acc Hx) as [acc' ->]; simpl. apply IH; assumption.
Qed.

(** ** The line loop *)

Section ScanFacts.

Variable U : unicode.
Variable k : SectionKind.

(** What [scan_lines] adds to the state: the indices [new] of the lines
    it appends, in increasing order and inside the range it runs over; the
    text is that of these lines, each followed by a newline; and when it
    leaves through [break], it does so at an index above every appended
    one. *)
Lemma scan_lines_spec (lines : list str) :
  forall st i,
  exists new,
    taken (scan_lines U k st i lines) = taken st ++ new /\
    section_text (scan_lines U k st i lines)
      = section_text st
        ++ List.concat (map (fun j => nth (j - i) lines [] ++ [nl]) new) /\
    StronglySorted lt new /\
    Forall (fun j => i <= j < i + length lines) new /\
    (stopped (scan_lines U k st i lines) = stopped st \/
     exists c, stopped (scan_lines U k st i lines) = Some c /\
               i <= c < i + length lines /\ Forall (fun j => j < c) new).
Proof.
  induction lines as [|line rest IH]; intros st i.
  - exists []. simpl. rewrite !app_nil_r. repeat split; auto; constructor.
  - simpl scan_lines.
    assert (Happ : forall enter,
      exists new,
        taken (scan_lines U k (append_line enter st i line) (S i) rest)
          = taken st ++ new /\
        section_text (scan_lines U k (append_line enter st i line) (S i) rest)
          = section_text st
            ++ List.concat (map (fun j => nth (j - i) (line :: rest) [] ++ [nl]) new) /\
        StronglySorted lt new /\
        Forall (fun j => i <= j < i + length (line :: rest)) new /\
        (stopped (scan_lines U k (append_line enter st i line) (S i) rest)
           = stopped st \/
         exists c, stopped (scan_lines U k (append_line enter st i line) (S i) rest)
                     = Some c /\
                   i <= c < i + length (line :: rest) /\
                   Forall (fun j => j < c) new)).
    { intro enter.
      destruct (IH (append_line enter st i line) (S i))
        as (new & Ht & Hx & Hs & Hr & Hc).
      exists (i :: new). simpl in Ht, Hx, Hc.
      assert (Hgt : Forall (lt i) new).
      { eapply Forall_impl; [|exact Hr]. simpl. intros; lia. }
      repeat split.
      - rewrite Ht, <- app_assoc. reflexivity.
      - rewrite Hx. simpl. rewrite Nat.sub_diag. simpl.
        repeat rewrite <- app_assoc. simpl. do 4 f_equal.
        apply map_ext_in. intros j Hj.
        rewrite Forall_forall in Hgt. specialize (Hgt j Hj).
        replace (j - i) with (S (j - S i)) by lia. reflexivity.
      - constructor; assumption.
      - constructor; [simpl; lia|].
        eapply Forall_impl; [|exact Hr]. simpl. intros; lia.
      - destruct Hc as [Hc | (c & Hc & Hb & Hlt)]; [left; exact Hc|].
        right. exists c. repeat split; try (simpl; lia); auto.
        constructor; [lia | assumption]. }
    assert (Hskip :
      exists new,
        taken (scan_lines U k st (S i) rest) = taken st ++ new /\
        section_text (scan_lines U k st (S i) rest)
          = section_text st
            ++ List.concat (map (fun j => nth (j - i) (line :: rest) [] ++ [nl]) new) /\
        StronglySorted lt new /\
        Forall (fun j => i <= j < i + length (line :: rest)) new /\
        (stopped (scan_lines U k st (S i) rest) = stopped st \/
         exists c, stopped (scan_lines U k st (S i) rest) = Some c /\
                   i <= c < i + length (line :: rest) /\
                   Forall (fun j => j < c) new)).
    { destruct (IH st (S i)) as (new & Ht & Hx & Hs & Hr & Hc).
      exists new. repeat split; auto.
      - rewrite Hx. do 2 f_equal. apply map_ext_in. intros j Hj.
        rewrite Forall_forall in Hr. specialize (Hr j Hj).
        replace (j - i) with (S (j - S i)) by lia. reflexivity.
      - eapply Forall_impl; [|exact Hr]. simpl. intros; lia.
      - destruct Hc as [Hc | (c & Hc & Hb & Hlt)]; [left; exact Hc|].
        right. exists c. repeat split; try (simpl; lia); auto. }
    unfold scan_step.
    destruct (is_header k (strip U (lower U line))); [apply Happ|].
    destruct (in_section st && is_end k (strip U (lower U line))).
    + exists []. simpl. rewrite !app_nil_r.
      split; [reflexivity|]. split; [reflexivity|].
      split; [constructor|]. split; [constructor|].
      right. exists i. repeat split; try lia. constructor.
    + destruct (in_section st && nonempty (strip U line));
        [apply Happ | apply Hskip].
Qed.

End ScanFacts.

Section ScanLaws.

Variable U : unicode.
Variable k : SectionKind.

Lemma scan_step_stopped (st : scan_state) (i : nat) (line : str) :
  match scan_step U k st i line with
  | Next st' => stopped st' = stopped st
  | Break st' => st' = close_at st i
  end.
Proof.
  unfold scan_step.
  destruct (is_header k _); [reflexivity|].
  destruct (in_section st && is_end k _); [reflexivity|].
  destruct (in_section st && nonempty _); reflexivity.
Qed.

(** A loop over [pre ++ rest] is the loop over [pre] followed, unless it
    left through [break], by the loop over [rest]. *)
Lemma scan_lines_app (pre rest : list str) :
  forall st i, stopped st = None ->
    scan_lines U k st i (pre ++ rest)
    = match stopped (scan_lines U k st i pre) with
      | Some _ => scan_lines U k st i pre
      | None => scan_lines U k (scan_lines U k st i pre) (i + length pre) rest
      end.
Proof.
  induction pre as [|line pre IH]; intros st i Hst; simpl.
  - rewrite Hst, Nat.add_0_r. reflexivity.
  - pose proof (scan_step_stopped st i line) as Hs.
    destruct (scan_step U k st i line) as [st'|st'].
    + rewrite IH by congruence.
      replace (S i + length pre) with (i + S (length pre)) by lia.
      reflexivity.
    + subst st'. reflexivity.
Qed.

(** A state whose section is open has not left the loop. *)
Lemma open_not_stopped (lines : list str) :
  forall st i, stopped st = None ->
    in_section (scan_lines U k st i lines) = true ->
    stopped (scan_lines U k st i lines) = None.
Proof.
  induction lines as [|line lines IH]; intros st i Hst Hopen; simpl in *.
  - exact Hst.
  - pose proof (scan_step_stopped st i line) as Hs.
    destruct (scan_step U k st i line) as [st'|st'].
    + apply IH; congruence.
    + subst st'. discriminate.
Qed.

(** The section text is the text of the lines at the recorded positions. *)
Lemma section_text_of_taken (text : str) :
  section_of U k text
  = List.concat (map (fun j => nth j (split_on nl text) [] ++ [nl])
                     (taken (scan U k text))).
Proof.
  unfold section_of, scan.
  destruct (scan_lines_spec U k (split_on nl text) scan_init 0)
    as (new & Ht & Hx & _).
  rewrite Hx, Ht. simpl. f_equal. apply map_ext. intro j.
  rewrite Nat.sub_0_r. reflexivity.
Qed.

Lemma taken_sorted (text : str) : StronglySorted lt (taken (scan U k text)).
Proof.
  unfold scan.
  destruct (scan_lines_spec U k (split_on nl text) scan_init 0)
    as (new & Ht & _ & Hs & _).
  rewrite Ht. exact Hs.
Qed.

Lemma taken_below_stop (text : str) (c : nat) :
  stopped (scan U k text) = Some c ->
  Forall (fun j => j < c) (taken (scan U k text)).
Proof.
  unfold scan. intro Hc.
  destruct (scan_lines_spec U k (split_on nl text) scan_init 0)
    as (new & Ht & _ & _ & _ & Hstop).
  rewrite Ht. simpl.
  destruct Hstop as [Hsame | (c' & Hc' & _ & Hlt)].
  - rewrite Hsame in Hc. discriminate.
  - rewrite Hc' in Hc. injection Hc as <-. exact Hlt.
Qed.

Lemma taken_from_first (text : str) (o : nat) :
  hd_error (taken (scan U k text)) = Some o ->
  Forall (fun j => o <= j) (taken (scan U k text)).
Proof.
  intro Hhd. pose proof (taken_sorted text) as Hs.
  destruct (taken (scan U k text)) as [|x l]; [discriminate|].
  injection Hhd as ->.
  apply StronglySorted_inv in Hs. destruct Hs as [_ Hall].
  constructor; [lia|]. eapply Forall_impl; [|exact Hall].
  simpl. intros; lia.
Qed.

End ScanLaws.

(** ** Sections of different kinds *)

(** C4, as stated, fails: the one line of the document "Academic Projects"
    is a header of Education (academic) and of Projects (projects), and
    each of the two independent loops takes it. *)
Lemma sections_overlap_counterexample :
  ~ sections_pairwise_disjoint ascii_tables (py "Academic Projects").
Proof.
  intro H. apply (H Education Projects 0); [discriminate| |];
    vm_compute; left; reflexivity.
Qed.

(** C4, amended: the three loops run independently of one another, each
    section's text is the text of the lines at its recorded positions, and
    the positions of two kinds are disjoint whenever the loop of the first
    kind leaves, at line [c], no later than the first line [o] taken by
    the second. *)
Theorem sections_disjoint_when_closed_before
  (U : unicode) (A B : SectionKind) (text : str) (c o : nat) :
  stopped (scan U A text) = Some c ->
  hd_error (taken (scan U B text)) = Some o ->
  c <= o ->
  (forall i, In i (taken (scan U A text)) ->
             In i (taken (scan U B text)) -> False) /\
  section_of U A text
  = List.concat (map (fun j => nth j (split_on nl text) [] ++ [nl])
                     (taken (scan U A text))) /\
  section_of U B text
  = List.concat (map (fun j => nth j (split_on nl text) [] ++ [nl])
                     (taken (scan U B text))).
Proof.
  intros Hc Ho Hle.
  split; [|split; apply section_text_of_taken].
  intros i HA HB.
  pose proof (taken_below_stop U A text Hc) as HltA.
  pose proof (taken_from_first U B text Ho) as HgeB.
  rewrite Forall_forall in HltA, HgeB.
  specialize (HltA i HA). specialize (HgeB i HB). lia.
Qed.

Lemma sections_disjoint_when_closed_before_witness :
  stopped (scan ascii_tables Education
             (doc ["Education"; "State University"; "Experience";
                   "Acme Corp"]%string)) = Some 2 /\
  taken (scan ascii_tables Experience
           (doc ["Education"; "State University"; "Experience";
                 "Acme Corp"]%string)) = [2; 3] /\
  ~ In 2 (taken (scan ascii_tables Education
                   (doc ["Education"; "State University"; "Experience";
                         "Acme Corp"]%string))).
Proof.
  split; [vm_compute; reflexivity|]. split; [vm_compute; reflexivity|].
  intro H.
  refine (proj1 (sections_disjoint_when_closed_before
                   ascii_tables Education Experience
                   (doc ["Education"; "State University"; "Experience";
                         "Acme Corp"]%string) (c := 2) (o := 2) _ _ _)
                2 H _).
  - vm_compute. reflexivity.
  - vm_compute. reflexivity.
  - lia.
  - vm_compute. left. reflexivity.
Defined.

(** ** Closing a section *)

(** C5, as stated, fails: "career" is a header keyword of Experience, yet
    the line "Career" does not close an open Education section, whose end
    markers are experience, work, employment, professional, projects and
    skills. *)
Lemma career_line_counterexample : ~ other_kind_header_closes ascii_tables.
Proof.
  intro H.
  destruct (H Education Experience (doc ["Education"; "Career"]%string)
              [py "Education"] (py "Career") []) as [Hstop _];
    try (vm_compute; reflexivity); try discriminate.
  vm_compute. lia.
Qed.

(** C5, amended: while the section of kind [k] is open, a line that is not
    a header of [k] itself and whose lowered, stripped form is non-empty,
    shorter than 30 and contains one of the end markers of [k] (not the
    header keywords of the other kinds) ends the loop: the section text
    is the text collected before that line, and neither that line nor a
    later one is part of it.  In particular "University of Example"
    followed by "Experience" gives the Education text
    "University of Example\n". *)
Theorem end_marker_line_closes_section
  (U : unicode) (k : SectionKind) (text : str) (pre : list str) (line : str)
  (post : list str) :
  split_on nl text = pre ++ line :: post ->
  in_section (scan_lines U k scan_init 0 pre) = true ->
  is_header k (strip U (lower U line)) = false ->
  is_end k (strip U (lower U line)) = true ->
  (scan U k text = close_at (scan_lines U k scan_init 0 pre) (length pre) /\
   section_of U k text = section_text (scan_lines U k scan_init 0 pre) /\
   Forall (fun j => j < length pre) (taken (scan U k text))) /\
  section_of ascii_tables Education
    (doc ["University of Example"; "Experience"]%string)
  = py "University of Example" ++ [nl].
Proof.
  intros Hsplit Hopen Hhdr Hend.
  split; [|vm_compute; reflexivity].
  assert (Hscan : scan U k text
                  = close_at (scan_lines U k scan_init 0 pre) (length pre)).
  { unfold scan. rewrite Hsplit.
    rewrite scan_lines_app by reflexivity.
    rewrite (open_not_stopped U k pre scan_init 0 eq_refl Hopen).
    simpl. unfold scan_step. rewrite Hhdr, Hopen, Hend. reflexivity. }
  split; [exact Hscan|]. split.
  - unfold section_of. rewrite Hscan. reflexivity.
  - rewrite Hscan. simpl.
    destruct (scan_lines_spec U k pre scan_init 0)
      as (new & Ht & _ & _ & Hr & _).
    rewrite Ht. simpl. eapply Forall_impl; [|exact Hr]. simpl. intros; lia.
Qed.

Lemma end_marker_line_closes_section_witness :
  section_of ascii_tables Education
    (doc ["Education"; "MIT"; "Work"; "Acme Corp"]%string)
  = section_text
      (scan_lines ascii_tables Education scan_init 0
         [py "Education"; py "MIT"]).
Proof.
  refine (proj1 (proj2 (proj1
    (end_marker_line_closes_section ascii_tables Education
       (doc ["Education"; "MIT"; "Work"; "Acme Corp"]%string)
       [py "Education"; py "MIT"] (py "Work") [py "Acme Corp"]
       _ _ _ _)))); vm_compute; reflexivity.
Defined.

(** C10: while the section of kind [k] is open, a line whose lowered,
    stripped form is shorter than 30 and contains a header keyword of [k]
    is appended to the section text and leaves the section open and the
    loop running, whatever else the line contains: the header test comes
    before the end test. *)
Theorem own_header_line_is_appended
  (U : unicode) (k : SectionKind) (text : str) (pre : list str) (line : str)
  (post : list str) :
  split_on nl text = pre ++ line :: post ->
  in_section (scan_lines U k scan_init 0 pre) = true ->
  is_header k (strip U (lower U line)) = true ->
  let before := scan_lines U k scan_init 0 pre in
  let after := scan_lines U k scan_init 0 (pre ++ [line]) in
  in_section after = true /\
  stopped after = None /\
  section_text after = section_text before ++ line ++ [nl] /\
  scan U k text = scan_lines U k after (S (length pre)) post /\
  In (length pre) (taken (scan U k text)).
Proof.
  intros Hsplit Hopen Hhdr. cbv zeta.
  pose proof (open_not_stopped U k pre scan_init 0 eq_refl Hopen) as Hrun.
  assert (Hafter : scan_lines U k scan_init 0 (pre ++ [line])
                   = append_line true (scan_lines U k scan_init 0 pre)
                       (length pre) line).
  { rewrite scan_lines_app by reflexivity.
    rewrite Hrun. simpl. unfold scan_step. rewrite Hhdr. reflexivity. }
  assert (Hst : stopped (scan_lines U k scan_init 0 (pre ++ [line])) = None).
  { rewrite Hafter. exact Hrun. }
  assert (Hscan : scan U k text
                  = scan_lines U k (scan_lines U k scan_init 0 (pre ++ [line]))
                      (S (length pre)) post).
  { unfold scan. rewrite Hsplit.
    replace (pre ++ line :: post) with ((pre ++ [line]) ++ post)
      by (rewrite <- app_assoc; reflexivity).
    rewrite scan_lines_app by reflexivity.
    rewrite Hst, length_app. simpl. f_equal. lia. }
  repeat split.
  - rewrite Hafter. reflexivity.
  - exact Hst.
  - rewrite Hafter. reflexivity.
  - exact Hscan.
  - rewrite Hscan.
    destruct (scan_lines_spec U k post
                (scan_lines U k scan_init 0 (pre ++ [line])) (S (length pre)))
      as (new & Ht & _).
    rewrite Ht, Hafter. simpl. apply in_or_app. left.
    apply in_or_app. right. left. reflexivity.
Qed.

(** "Academic Projects" inside an open Education section: it contains the
    Education keyword "academic" and the end marker "projects", and is
    appended. *)
Lemma own_header_line_is_appended_witness :
  is_end Education
    (strip ascii_tables (lower ascii_tables (py "Academic Projects"))) = true /\
  In 1 (taken (scan ascii_tables Education
                 (doc ["Education"; "Academic Projects"; "Chess engine"]%string))).
Proof.
  split; [vm_compute; reflexivity|].
  refine (proj2 (proj2 (proj2 (proj2
    (own_header_line_is_appended ascii_tables Education
       (doc ["Education"; "Academic Projects"; "Chess engine"]%string)
       [py "Education"] (py "Academic Projects") [py "Chess engine"]
       _ _ _))))); vm_compute; reflexivity.
Defined.

(** ** extract_name *)

Lemma any_in_false (keys : list str) (s : str) :
  any_in keys s = false <-> forall w, In w keys -> contains w s = false.
Proof.
  unfold any_in. induction keys as [|x keys IH]; simpl.
  - split; [intros _ w []| reflexivity].
  - rewrite orb_false_iff, IH. split.
    + intros [Hx Hk] w [<-|Hw]; auto.
    + intro H. split; [apply H; left; reflexivity|].
      intros w Hw. apply H. right. exact Hw.
Qed.

Lemma name_line_candidate (U : unicode) (line : str) :
  name_line U line = true <-> name_candidate U line.
Proof.
  unfold name_line, name_candidate.
  rewrite !andb_true_iff, negb_true_iff, !Nat.ltb_lt, any_in_false.
  tauto.
Qed.

Lemma first_name_line_spec (U : unicode) (lines : list str) :
  match first_name_line U lines with
  | Some n =>
      exists pre line post,
        lines = pre ++ line :: post /\
        Forall (fun l => ~ name_candidate U l) pre /\
        name_candidate U line /\ n = strip U line
  | None => Forall (fun l => ~ name_candidate U l) lines
  end.
Proof.
  induction lines as [|line lines IH]; simpl.
  - constructor.
  - destruct (name_line U line) eqn:Hl.
    + exists [], line, lines.
      split; [reflexivity|]. split; [constructor|].
      split; [apply name_line_candidate; exact Hl | reflexivity].
    + assert (Hn : ~ name_candidate U line).
      { rewrite <- name_line_candidate. congruence. }
      destruct (first_name_line U lines) as [n|].
      * destruct IH as (pre & l & post & -> & Hpre & Hc & ->).
        exists (line :: pre), l, post.
        split; [reflexivity|]. split; [constructor; assumption|].
        split; [exact Hc | reflexivity].
      * constructor; assumption.
Qed.

(** The rule of the specification (trimmed length) and [extract_name]
    (length of the line as it is) differ on the document "   Bob   ". *)
Lemma extract_name_counterexample :
  extract_name ascii_tables (py "   Bob   ")
  <> spec_extract_name ascii_tables (py "   Bob   ").
Proof.
  vm_compute. discriminate.
Qed.

(** What [extract_name] computes: it looks at the first 5 lines only and
    returns, stripped, the first of them whose length as it is (not
    trimmed) is strictly between 5 and 40 and whose lowered form contains
    none of "@", "http", "resume", "cv", "email", "phone"; it returns null
    when there is none. *)
Theorem extract_name_first_candidate (U : unicode) (text : str) :
  match extract_name U text with
  | Some n =>
      exists pre line post,
        firstn 5 (split_on nl text) = pre ++ line :: post /\
        Forall (fun l => ~ name_candidate U l) pre /\
        name_candidate U line /\ n = strip U line
  | None =>
      Forall (fun l => ~ name_candidate U l) (firstn 5 (split_on nl text))
  end.
Proof.
  unfold extract_name. apply first_name_line_spec.
Qed.

(** C6: the name is the first line, among the first 5, whose trimmed
    length is strictly between 5 and 40 and which holds no stop word.
    [extract_name] tests [len(line)], the length before trimming, and
    strips only what it returns.  So the line "Bob" is refused but
    "   Bob   " is accepted and returned as "Bob", and a line of six
    spaces is accepted and returned as the empty string, which hides the
    name "Jane Smith" on the line after it. *)
Theorem extract_name_measures_untrimmed_line :
  extract_name ascii_tables (py "Bob") = None /\
  extract_name ascii_tables (py "   Bob   ") = Some (py "Bob") /\
  spec_extract_name ascii_tables (py "   Bob   ") = None /\
  extract_name ascii_tables (doc ["      "; "Jane Smith"]%string) = Some [] /\
  spec_extract_name ascii_tables (doc ["      "; "Jane Smith"]%string)
  = Some (py "Jane Smith").
Proof.
  repeat split; vm_compute; reflexivity.
Qed.

(** ** Records and sentinels *)

Section Records.

Variable U : unicode.

Lemma education_entry_complete (entry : option str)
  (acc acc' : list EducationRecord) :
  Forall edu_complete acc ->
  education_entry U entry acc = Ok acc' ->
  Forall edu_complete acc'.
Proof.
  intros Hacc. unfold education_entry.
  destruct entry as [e|]; [|discriminate].
  destruct (Nat.ltb _ 10); [intro H; injection H as <-; exact Hacc|].
  destruct (truthy _ || truthy _); intro H; injection H as <-;
    [|exact Hacc].
  apply Forall_app. split; [exact Hacc|].
  constructor; [|constructor].
  unfold edu_complete; simpl.
  repeat split; apply py_or_nonempty; discriminate.
Qed.

Lemma experience_entry_complete (entry : option str)
  (acc acc' : list ExperienceRecord) :
  Forall exp_complete acc ->
  experience_entry U entry acc = Ok acc' ->
  Forall exp_complete acc'.
Proof.
  intros Hacc. unfold experience_entry.
  destruct entry as [e|]; [|discriminate].
  destruct (Nat.ltb _ 15 || _); [intro H; injection H as <-; exact Hacc|].
  destruct (find_company U e) as [company|]; simpl; [|discriminate].
  destruct (truthy _ || truthy _); intro H; injection H as <-;
    [|exact Hacc].
  apply Forall_app. split; [exact Hacc|].
  constructor; [|constructor].
  unfold exp_complete; simpl.
  repeat split; apply py_or_nonempty; discriminate.
Qed.

(** A pattern without capturing groups puts no [None] in the list that
    [re.split] returns. *)
Lemma split_loop_groupless (icase : bool) (r : regex) :
  ngroups r = 0 ->
  forall fuel adv prev s,
    Forall (fun e => e <> None) (split_loop U fuel icase r adv prev s).
Proof.
  intros Hg fuel.
  induction fuel as [|fuel IH]; intros adv prev s; simpl.
  - constructor; [discriminate | constructor].
  - destruct (search_from U icase r adv [] prev s) as [m|].
    + rewrite Hg. simpl. constructor; [discriminate | apply IH].
    + constructor; [discriminate | constructor].
Qed.

(** [extract_education] and [extract_projects] split on patterns without
    capturing groups and always return. *)
Lemma extract_education_returns (text : str) :
  exists l, extract_education U text = Ok l.
Proof.
  unfold extract_education.
  destruct (nonempty _); [|eauto].
  apply for_each_total with (Q := fun e : option str => e <> None).
  - intros [e|] acc He; [|congruence]. unfold education_entry.
    destruct (Nat.ltb _ 10); [eauto|].
    destruct (truthy _ || truthy _); eauto.
  - apply split_loop_groupless. reflexivity.
Qed.

Lemma extract_projects_returns (text : str) :
  exists l, extract_projects U text = Ok l.
Proof.
  unfold extract_projects.
  destruct (nonempty _); [|eauto].
  apply for_each_total with (Q := fun e : option str => e <> None).
  - intros [e|] acc He; [|congruence]. unfold project_entry.
    destruct (Nat.ltb _ 15 || _); [eauto|].
    destruct (nonempty _); eauto.
  - apply split_loop_groupless. reflexivity.
Qed.

(** C7: every record that [extract_education] or [extract_experience]
    emits has its three fields non-empty: a field is the extracted value
    when that is a non-empty string and the fixed sentinel otherwise.
    ([extract_education] always returns a list; [extract_experience]
    emits records only when it returns one.) *)
Theorem sentinel_completeness (text : str) :
  (exists l, extract_education U text = Ok l /\ Forall edu_complete l) /\
  match extract_experience U text with
  | Ok l => Forall exp_complete l
  | Raise _ => True
  end.
Proof.
  split.
  - destruct (extract_education_returns text) as [l Hl].
    exists l. split; [exact Hl|].
    revert Hl. unfold extract_education.
    destruct (nonempty _).
    + apply for_each_invariant with (P := Forall edu_complete).
      * intros x acc acc'. apply education_entry_complete.
      * constructor.
    + intro H; injection H as <-. constructor.
  - destruct (extract_experience U text) as [l|] eqn:Hl; [|exact I].
    revert Hl. unfold extract_experience.
    destruct (nonempty _).
    + apply for_each_invariant with (P := Forall exp_complete).
      * intros x acc acc'. apply experience_entry_complete.
      * constructor.
    + intro H; injection H as <-. constructor.
Qed.

End Records.

(** ** Searching for a skill: \b, the escaped keyword, \b *)

Section SkillSearch.

Variable U : unicode.

Lemma class_match_chr (c x : char) :
  class_match U false [CChar c] x = N.eqb x c.
Proof.
  unfold class_match, item_match. simpl.
  rewrite !orb_false_r. reflexivity.
Qed.

Lemma last_char_cons (prev : option char) (c : char) (w : str) :
  last_char prev (c :: w) = last_char (Some c) w.
Proof.
  unfold last_char. simpl.
  destruct (rev w) as [|y l]; reflexivity.
Qed.

Lemma last_char_app (prev : option char) (a w : str) :
  last_char prev (a ++ w) = last_char (last_char prev a) w.
Proof.
  revert prev. induction a as [|x a IH]; intro prev.
  - reflexivity.
  - simpl app. rewrite !last_char_cons. apply IH.
Qed.

Lemma starts_with_app (w s : str) :
  starts_with w s = true <-> exists b, s = w ++ b.
Proof.
  revert s. induction w as [|c w IH]; intro s; simpl.
  - split; [intros _; exists s; reflexivity | reflexivity].
  - destruct s as [|x s].
    + split; [discriminate | intros [b Hb]; discriminate].
    + rewrite andb_true_iff, N.eqb_eq, IH. split.
      * intros [-> [b ->]]. exists b. reflexivity.
      * intros [b Hb]. injection Hb as -> ->. split; [reflexivity | eauto].
Qed.

Lemma skipn_length_app (w b : str) : skipn (length w) (w ++ b) = b.
Proof.
  induction w; simpl; auto.
Qed.

Lemma mt_seq (icase : bool) (a b : regex) prev s cs k :
  mt U icase (Seq a b) prev s cs k
  = mt U icase a prev s cs (fun p' s' c' => mt U icase b p' s' c' k).
Proof. reflexivity. Qed.

Lemma mt_chr (icase : bool) (items : list citem) prev s cs k :
  mt U icase (Chr items) prev s cs k
  = match s with
    | x :: s' => if class_match U icase items x then k (Some x) s' cs else None
    | [] => None
    end.
Proof. reflexivity. Qed.

Lemma mt_wordb (icase : bool) prev s cs k :
  mt U icase WordB prev s cs k
  = if boundary U prev s then k prev s cs else None.
Proof. reflexivity. Qed.

(** The literal pattern of a keyword matches exactly the keyword. *)
Lemma mt_lit_str (w : str) :
  forall prev s cs k,
    mt U false (lit_str w) prev s cs k
    = if starts_with w s
      then k (last_char prev w) (skipn (length w) s) cs
      else None.
Proof.
  induction w as [|c w IH]; intros prev s cs k.
  - reflexivity.
  - change (lit_str (c :: w)) with (Seq (chr c) (lit_str w)).
    rewrite mt_seq. unfold chr. rewrite mt_chr.
    destruct s as [|x s]; [reflexivity|].
    rewrite class_match_chr. simpl starts_with. rewrite (N.eqb_sym c x).
    destruct (N.eqb x c) eqn:Hx; [|reflexivity].
    apply N.eqb_eq in Hx. subst x.
    rewrite IH, last_char_cons. reflexivity.
Qed.

Lemma match_here_skill (w : str) (prev : option char) (s : str) :
  match_here U false (skill_pattern w) false prev s
  = if boundary U prev s && starts_with w s
       && boundary U (last_char prev w) (skipn (length w) s)
    then Some (last_char prev w, skipn (length w) s, [])
    else None.
Proof.
  unfold match_here, skill_pattern.
  rewrite mt_seq, mt_wordb.
  destruct (boundary U prev s); [|reflexivity].
  rewrite mt_seq, mt_lit_str.
  destruct (starts_with w s); [|reflexivity].
  rewrite mt_wordb.
  destruct (boundary U _ _); reflexivity.
Qed.

Lemma search_skill (w : str) (s : str) :
  forall skipped prev,
    search_from U false (skill_pattern w) false skipped prev s <> None <->
    exists a b, s = a ++ w ++ b /\
      boundary U (last_char prev a) (w ++ b) = true /\
      boundary U (last_char prev (a ++ w)) b = true.
Proof.
  induction s as [|x s IH]; intros skipped prev.
  - simpl search_from. rewrite match_here_skill. split.
    + destruct (boundary U prev [] && starts_with w []
                && boundary U (last_char prev w) (skipn (length w) []))
        eqn:Hm; [|congruence].
      intros _. apply andb_true_iff in Hm. destruct Hm as [Hm Hb2].
      apply andb_true_iff in Hm. destruct Hm as [Hb1 Hw].
      apply starts_with_app in Hw. destruct Hw as [b Hb].
      exists [], b. rewrite Hb in Hb1, Hb2.
      rewrite skipn_length_app in Hb2.
      split; [exact Hb|]. split; [exact Hb1 | exact Hb2].
    + intros (a & b & Hs & Hb1 & Hb2).
      symmetry in Hs. apply app_eq_nil in Hs. destruct Hs as [-> Hs].
      apply app_eq_nil in Hs. destruct Hs as [-> ->].
      change (boundary U prev [] = true) in Hb1.
      change (boundary U (last_char prev []) (skipn (length (@nil char)) []))
        with (boundary U prev []).
      rewrite Hb1. simpl. discriminate.
  - simpl search_from. rewrite match_here_skill.
    destruct (boundary U prev (x :: s) && starts_with w (x :: s)
              && boundary U (last_char prev w) (skipn (length w) (x :: s)))
      eqn:Hm.
    + split; [intros _ | discriminate].
      apply andb_true_iff in Hm. destruct Hm as [Hm Hb2].
      apply andb_true_iff in Hm. destruct Hm as [Hb1 Hw].
      apply starts_with_app in Hw. destruct Hw as [b Hb].
      exists [], b. rewrite Hb in Hb1, Hb2.
      rewrite skipn_length_app in Hb2.
      split; [exact Hb|]. split; [exact Hb1 | exact Hb2].
    + rewrite IH. split.
      * intros (a & b & -> & Hb1 & Hb2).
        exists (x :: a), b. simpl app. rewrite !last_char_cons.
        split; [reflexivity|]. split; assumption.
      * intros (a & b & Hs & Hb1 & Hb2).
        destruct a as [|y a].
        -- exfalso.
           change ([] ++ w ++ b) with (w ++ b) in Hs.
           change (last_char prev []) with prev in Hb1.
           change ([] ++ w) with w in Hb2.
           rewrite Hs in Hm. rewrite skipn_length_app in Hm.
           assert (Hw : starts_with w (w ++ b) = true)
             by (apply starts_with_app; eauto).
           rewrite Hb1, Hw, Hb2 in Hm. discriminate.
        -- simpl in Hs. injection Hs as -> ->.
           exists a, b.
           change ((y :: a) ++ w) with (y :: a ++ w) in Hb2.
           rewrite !last_char_cons in Hb1, Hb2.
           split; [reflexivity|]. split; assumption.
Qed.

Lemma skill_found_occurs (text w : str) :
  skill_found U text w = true <-> occurs_word_bounded U w (lower U text).
Proof.
  unfold skill_found, occurs_word_bounded, re_search.
  rewrite <- search_skill with (skipped := []).
  destruct (search_from U false (skill_pattern w) false [] None (lower U text));
    split; congruence.
Qed.

Lemma found_skills_filter (f : str -> bool) (l : list str) :
  forall acc,
    fold_left (fun found skill => if f skill then found ++ [skill] else found)
              l acc
    = acc ++ filter f l.
Proof.
  induction l as [|x l IH]; intro acc; simpl.
  - rewrite app_nil_r. reflexivity.
  - rewrite IH. destruct (f x); [|reflexivity].
    rewrite <- app_assoc. reflexivity.
Qed.

(** C8: the skills are exactly the keywords of [skill_keywords] that have a
    word-bounded occurrence in the lowered text, in the order of
    [skill_keywords]; on "python javascript leadership" they are python,
    javascript, leadership. *)
Theorem extract_skills_vocabulary_order (text : str) :
  (exists f : str -> bool,
     (forall w, f w = true <-> occurs_word_bounded U w (lower U text)) /\
     extract_skills U text = filter f skill_keywords) /\
  (forall w, In w (extract_skills U text) <->
             In w skill_keywords /\ occurs_word_bounded U w (lower U text)) /\
  extract_skills ascii_tables (py "python javascript leadership")
  = [py "python"; py "javascript"; py "leadership"].
Proof.
  assert (Hf : extract_skills U text = filter (skill_found U text) skill_keywords).
  { unfold extract_skills. rewrite found_skills_filter. reflexivity. }
  split; [|split].
  - exists (skill_found U text). split; [|exact Hf].
    intro w. apply skill_found_occurs.
  - intro w. rewrite Hf, filter_In, skill_found_occurs. reflexivity.
  - vm_compute. reflexivity.
Qed.

End SkillSearch.

(** ** Splitting a section into entries *)

Section SplitLaws.

Variable U : unicode.

Lemma mt_look (icase : bool) (r : regex) prev s cs k :
  mt U icase (Look r) prev s cs k
  = match mt U icase r prev s cs (fun p' s' c' => Some (p', s', c')) with
    | Some (_, _, c') => k prev s c'
    | None => None
    end.
Proof. reflexivity. Qed.

Lemma join_cons (p : str) (ps : list str) :
  ps <> [] -> join nl (p :: ps) = p ++ nl :: join nl ps.
Proof.
  destruct ps; [congruence | reflexivity].
Qed.

(** A match of "\n(?=q)" is one newline: the lookahead takes nothing. *)
Lemma match_here_newline_look (q : regex) adv prev s p' s' c' :
  match_here U false (Seq (chr nl) (Look q)) adv prev s = Some (p', s', c') ->
  s = nl :: s' /\ p' = Some nl.
Proof.
  unfold match_here. rewrite mt_seq. unfold chr. rewrite mt_chr.
  destruct s as [|x s]; [discriminate|].
  rewrite class_match_chr.
  destruct (N.eqb x nl) eqn:Hx; [|discriminate].
  apply N.eqb_eq in Hx. subst x.
  rewrite mt_look.
  destruct (mt U false q (Some nl) s [] _) as [[[? ?] c'']|]; [|discriminate].
  destruct (adv && _); [discriminate|].
  intro H. injection H as <- <- <-. split; reflexivity.
Qed.

Lemma search_newline_look (q : regex) (s : str) :
  forall adv skipped prev m,
    search_from U false (Seq (chr nl) (Look q)) adv skipped prev s = Some m ->
    exists a, m_skipped m = skipped ++ a /\ s = a ++ nl :: m_rest m /\
              m_text m = [nl].
Proof.
  induction s as [|x s IH]; intros adv skipped prev m; simpl search_from.
  - destruct (match_here U false (Seq (chr nl) (Look q)) adv prev [])
      as [[[p' s'] c']|] eqn:Hm; [|discriminate].
    apply match_here_newline_look in Hm. destruct Hm as [Hm _]. discriminate.
  - destruct (match_here U false (Seq (chr nl) (Look q)) adv prev (x :: s))
      as [[[p' s'] c']|] eqn:Hm.
    + apply match_here_newline_look in Hm. destruct Hm as [Hm _].
      injection Hm as -> ->.
      intro H. injection H as <-. cbn [m_skipped m_rest m_text].
      exists []. rewrite app_nil_r.
      split; [reflexivity|]. split; [reflexivity|].
      change (firstn (S (length s') - length s') (nl :: s') = [nl]).
      replace (S (length s') - length s') with 1 by lia.
      reflexivity.
    + intro H. apply IH in H. destruct H as (a & Hsk & -> & Ht).
      exists (x :: a). rewrite Hsk, <- app_assoc.
      split; [reflexivity|]. split; [reflexivity | exact Ht].
Qed.

Lemma split_newline_look (q : regex) :
  ngroups q = 0 ->
  forall fuel adv prev s,
    exists pieces,
      split_loop U fuel false (Seq (chr nl) (Look q)) adv prev s
      = map Some pieces /\
      pieces <> [] /\ join nl pieces = s.
Proof.
  intros Hq fuel.
  induction fuel as [|fuel IH]; intros adv prev s; simpl split_loop.
  - exists [s]. repeat split. discriminate.
  - destruct (search_from U false (Seq (chr nl) (Look q)) adv [] prev s)
      as [m|] eqn:Hm.
    + apply search_newline_look in Hm. destruct Hm as (a & Hsk & Hs & Ht).
      destruct (IH (negb (nonempty (m_text m))) (m_prev m) (m_rest m))
        as (pieces & Hp & Hne & Hj).
      exists (m_skipped m :: pieces).
      simpl ngroups. rewrite Hq. cbn [seq map app]. rewrite Hp.
      split; [reflexivity|]. split; [discriminate|].
      rewrite join_cons by exact Hne.
      rewrite Hj, Hsk, Hs. reflexivity.
    + exists [s]. repeat split. discriminate.
Qed.

(** Where an entry split is made on a newline followed by a lookahead (the
    education split, the projects split and the year-line split of the
    experience section), the newline alone is taken: the pieces are
    strings and, joined by newlines, they give the section text back. *)
Lemma lookahead_splits_lossless (r : regex) (text : str) :
  In r [education_split_pattern; year_line_split_pattern;
        projects_split_pattern] ->
  exists pieces,
    re_split U false r text = map Some pieces /\ join nl pieces = text.
Proof.
  intros [<-|[<-|[<-|[]]]];
    (edestruct split_newline_look as (pieces & Hp & _ & Hj);
     [|exists pieces; split; [exact Hp | exact Hj]]; reflexivity).
Qed.

End SplitLaws.

(** ** The extractors on the document [jane] *)

(** C3: the first split of an experience section is made on the date range
    itself, with its capturing groups.  On the Experience section of
    [jane] the range "2020 - Present" is removed from the text and the
    list holds, between the two pieces, the three groups of the pattern:
    [None], [None] and "Present".  The entries do not give the section
    text back, and the anchor is in none of them. *)
Theorem experience_split_consumes_date_range :
  section_of ascii_tables Experience jane
  = doc ["Experience"; "Software Engineer at Acme Corp"; "2020 - Present";
         ""]%string /\
  experience_entries ascii_tables (section_of ascii_tables Experience jane)
  = [Some (doc ["Experience"; "Software Engineer at Acme Corp"; ""]%string);
     None; None; Some (py "Present"); Some [nl]].
Proof.
  split; vm_compute; reflexivity.
Qed.

(** C1: on [jane], [extract_experience] reaches the [None] that follows the
    first piece and raises AttributeError at [entry.strip()]; the
    extraction step of [parse_resume] raises with it. *)
Theorem extract_experience_raises_on_date_range :
  extract_experience ascii_tables jane = Raise AttributeError /\
  parse_resume_extract ascii_tables jane = Raise AttributeError.
Proof.
  split; vm_compute; reflexivity.
Qed.

(** Without a date range in the section the same function returns. *)
Example extract_experience_without_dates :
  extract_experience ascii_tables
    (doc ["Experience"; "Software Engineer at Acme Corp"; "since 2020"]%string)
  = Ok [{| title := doc ["Experience"; "Software Engineer"]%string;
           company := py "Acme Corp";
           duration := py "Duration not specified" |}].
Proof. vm_compute. reflexivity. Qed.

Example extract_projects_bullets :
  extract_projects ascii_tables
    (doc ["Projects"; "- Chess engine in Rust"; "Plays chess";
          "- Web crawler: fast"]%string)
  = Ok [{| proj_name := py "Chess engine in Rust";
           proj_description := py "Plays chess" |};
        {| proj_name := py "Web crawler: fast"; proj_description := [] |}].
Proof. vm_compute. reflexivity. Qed.

(** C2, as stated, fails: the education split is made before the line
    "2019", which becomes an entry of its own, shorter than 10, and is
    dropped; the one record comes from the three lines before it and its
    year is the sentinel. *)
Lemma jane_scenario_counterexample : ~ jane_scenario ascii_tables.
Proof.
  intros (_ & _ & _ & (r & Hr & Hy) & _).
  vm_compute in Hr. injection Hr as <-.
  vm_compute in Hy. discriminate.
Qed.

(** C2, amended: on [jane] the name is "Jane Smith", the email
    "jane.smith@mail.com", the phone "555-222-3344", and the education is
    one record whose institution is the text of the three lines
    "Education", "BS Computer Science", "State University" and whose
    degree and year are the sentinels. *)
Theorem jane_extraction :
  extract_name ascii_tables jane = Some (py "Jane Smith") /\
  extract_email ascii_tables jane = Some (py "jane.smith@mail.com") /\
  extract_phone ascii_tables jane = Some (py "555-222-3344") /\
  extract_education ascii_tables jane
  = Ok [{| degree := py "Degree not specified";
           institution :=
             doc ["Education"; "BS Computer Science";
                  "State University"]%string;
           year := py "Year not specified" |}].
Proof.
  repeat split; vm_compute; reflexivity.
Qed.

(** ** Determinism *)



(** ** The matcher is sound *)

Section MatcherSound.

Variable U : unicode.
Variable icase : bool.

Lemma last_char_nil (prev : option char) : last_char prev [] = prev.
Proof. reflexivity. Qed.

Lemma last_char_one (prev : option char) (c : char) :
  last_char prev [c] = Some c.
Proof. reflexivity. Qed.

Lemma sub_bound_0 (hi : option nat) : option_map (fun h => h - 0) hi = hi.
Proof. destruct hi; simpl; [rewrite Nat.sub_0_r|]; reflexivity. Qed.

Lemma mt_sound (r : regex) :
  forall prev s cs k res,
    mt U icase r prev s cs k = Some res ->
    mt_post U icase r prev s cs k res.
Proof.
  induction r as [ | items | | a IHa b IHb | a IHa b IHb
                 | r' IH lo hi greedy | j r' IH | r' IH | | | ];
    intros prev s cs k res H.
  - (* Eps *)
    exists [], s, cs. simpl in H.
    repeat split; auto; try constructor; try discriminate.
  - (* Chr *)
    rewrite mt_chr in H. destruct s as [|c s]; [discriminate|].
    destruct (class_match U icase items c) eqn:Hc; [|discriminate].
    exists [c], s, cs.
    repeat split; auto; try (constructor; assumption); try discriminate.
  - (* Dot *)
    simpl in H. destruct s as [|c s]; [discriminate|].
    destruct (N.eqb c nl) eqn:Hc; [discriminate|].
    exists [c], s, cs.
    repeat split; auto; try discriminate.
    constructor. intro E. subst c. rewrite N.eqb_refl in Hc. discriminate.
  - (* Seq *)
    rewrite mt_seq in H. apply IHa in H.
    destruct H as (w1 & s1 & c1 & Hs & Hk & Hd1 & Hm1 & Hu1 & Hp1).
    apply IHb in Hk.
    destruct Hk as (w2 & s2 & c2 & Hs2 & Hk & Hd2 & Hm2 & Hu2 & Hp2).
    exists (w1 ++ w2), s2, c2. subst s s1.
    rewrite last_char_app.
    split; [rewrite app_assoc; reflexivity|]. split; [exact Hk|].
    split; [constructor; assumption|].
    split; [|split].
    + intros i Hi. simpl in Hi. apply orb_false_iff in Hi.
      destruct Hi as [Hi1 Hi2]. rewrite Hm2, Hm1; auto.
    + intros i Hi. simpl in Hi. apply orb_true_iff in Hi.
      destruct Hi as [Hi|Hi]; auto.
    + auto.
  - (* Alt *)
    simpl in H. unfold orelse in H.
    destruct (mt U icase a prev s cs k) as [x|] eqn:Ha.
    + injection H as ->. apply IHa in Ha.
      destruct Ha as (w & s' & c' & Hs & Hk & Hd & Hm & Hu & Hp).
      exists w, s', c'.
      split; [exact Hs|]. split; [exact Hk|].
      split; [apply den_alt_l; exact Hd|].
      split; [|split]; auto.
      * intros i Hi. simpl in Hi. apply orb_false_iff in Hi.
        apply Hm. tauto.
      * intros i Hi. simpl in Hi. apply andb_true_iff in Hi.
        apply Hu. tauto.
    + apply IHb in H.
      destruct H as (w & s' & c' & Hs & Hk & Hd & Hm & Hu & Hp).
      exists w, s', c'.
      split; [exact Hs|]. split; [exact Hk|].
      split; [apply den_alt_r; exact Hd|].
      split; [|split]; auto.
      * intros i Hi. simpl in Hi. apply orb_false_iff in Hi.
        apply Hm. tauto.
      * intros i Hi. simpl in Hi. apply andb_true_iff in Hi.
        apply Hu. tauto.
  - (* Rep *)
    assert (Hloop : forall fuel n prev s cs,
      (fix loop (fuel n : nat) (prev : option char) (s : str) (cs : caps)
         {struct fuel} : answer :=
         let more (_ : unit) : answer :=
           match fuel with
           | 0 => None
           | S fuel' =>
               if below n hi then
                 mt U icase r' prev s cs (fun p' s' c' =>
                   if Nat.ltb (length s') (length s)
                   then loop fuel' (S n) p' s' c'
                   else None)
               else None
           end in
         let stop (_ : unit) : answer :=
           if Nat.leb lo n then k prev s cs else None in
         if greedy then orelse (more tt) stop else orelse (stop tt) more)
        fuel n prev s cs = Some res ->
      exists w s' c',
        s = w ++ s' /\
        k (last_char prev w) s' c' = Some res /\
        den U icase (Rep r' (lo - n) (option_map (fun h => h - n) hi) greedy)
            prev w s' /\
        (forall i, may_set r' i = false -> get_group c' i = get_group cs i) /\
        (forall i, Nat.ltb n lo && must_set r' i = true ->
                   get_group c' i <> None) /\
        (forall i, get_group cs i <> None -> get_group c' i <> None)).
    { clear H prev s cs.
      induction fuel as [|fuel IHf]; intros n prev s cs Hrun.
      - (* no fuel: only the stop branch *)
        assert (Hstop : (if Nat.leb lo n then k prev s cs else None) = Some res).
        { destruct greedy; simpl in Hrun; unfold orelse in Hrun;
            [exact Hrun|].
          destruct (if Nat.leb lo n then k prev s cs else None);
            [exact Hrun | discriminate]. }
        destruct (Nat.leb lo n) eqn:Hlo; [|discriminate].
        apply Nat.leb_le in Hlo.
        exists [], s, cs.
        split; [reflexivity|]. split; [exact Hstop|].
        split; [replace (lo - n) with 0 by lia; constructor|].
        split; [reflexivity|]. split; [|auto].
        intros i Hi. apply andb_true_iff in Hi. destruct Hi as [Hi _].
        apply Nat.ltb_lt in Hi. lia.
      - assert (Hcases :
          (Nat.leb lo n = true /\ k prev s cs = Some res) \/
          (below n hi = true /\
           mt U icase r' prev s cs (fun p' s' c' =>
             if Nat.ltb (length s') (length s)
             then (fix loop (fuel n : nat) (prev : option char) (s : str)
                     (cs : caps) {struct fuel} : answer :=
                     let more (_ : unit) : answer :=
                       match fuel with
                       | 0 => None
                       | S fuel' =>
                           if below n hi then
                             mt U icase r' prev s cs (fun p' s' c' =>
                               if Nat.ltb (length s') (length s)
                               then loop fuel' (S n) p' s' c'
                               else None)
                           else None
                       end in
                     let stop (_ : unit) : answer :=
                       if Nat.leb lo n then k prev s cs else None in
                     if greedy then orelse (more tt) stop
                     else orelse (stop tt) more)
                    fuel (S n) p' s' c'
             else None) = Some res)).
        { destruct greedy; simpl in Hrun; unfold orelse in Hrun.
          - destruct (below n hi) eqn:Hb.
            + match type of Hrun with
              | match ?X with _ => _ end = _ => destruct X as [x|] eqn:Hm
              end.
              * injection Hrun as ->. right. split; [reflexivity | exact Hm].
              * left. destruct (Nat.leb lo n); [auto | discriminate].
            + left. destruct (Nat.leb lo n); [auto | discriminate].
          - destruct (Nat.leb lo n) eqn:Hlo.
            + destruct (k prev s cs) as [x|] eqn:Hk.
              * injection Hrun as ->. left. auto.
              * destruct (below n hi) eqn:Hb; [|discriminate].
                right. split; [reflexivity | exact Hrun].
            + destruct (below n hi) eqn:Hb; [|discriminate].
              right. split; [reflexivity | exact Hrun]. }
        destruct Hcases as [[Hlo Hstop] | [Hb Hmore]].
        + apply Nat.leb_le in Hlo.
          exists [], s, cs.
          split; [reflexivity|]. split; [exact Hstop|].
          split; [replace (lo - n) with 0 by lia; constructor|].
          split; [reflexivity|]. split; [|auto].
          intros i Hi. apply andb_true_iff in Hi. destruct Hi as [Hi _].
          apply Nat.ltb_lt in Hi. lia.
        + apply IH in Hmore.
          destruct Hmore as (w1 & s1 & c1 & Hs & Hk & Hd1 & Hm1 & Hu1 & Hp1).
          destruct (Nat.ltb (length s1) (length s)) eqn:Hlt; [|discriminate].
          apply Nat.ltb_lt in Hlt.
          apply IHf in Hk.
          destruct Hk as (w2 & s2 & c2 & Hs2 & Hk & Hd2 & Hm2 & Hu2 & Hp2).
          exists (w1 ++ w2), s2, c2. subst s s1.
          rewrite last_char_app.
          split; [rewrite app_assoc; reflexivity|]. split; [exact Hk|].
          split.
          { apply den_rep_more.
            - intro E. subst w1. simpl in Hlt. lia.
            - destruct hi as [h|]; simpl in *; [|reflexivity].
              apply Nat.ltb_lt in Hb. apply Nat.ltb_lt. lia.
            - exact Hd1.
            - replace (pred (lo - n)) with (lo - S n) by lia.
              replace (option_map pred (option_map (fun h => h - n) hi))
                with (option_map (fun h => h - S n) hi).
              + exact Hd2.
              + destruct hi as [h|]; simpl; [f_equal; lia | reflexivity]. }
          split; [|split].
          * intros i Hi. rewrite Hm2, Hm1; auto.
          * intros i Hi. apply andb_true_iff in Hi. destruct Hi as [_ Hi].
            apply Hp2. apply Hu1. exact Hi.
          * auto. }
    simpl in H. apply Hloop in H.
    destruct H as (w & s' & c' & Hs & Hk & Hd & Hm & Hu & Hp).
    rewrite Nat.sub_0_r, sub_bound_0 in Hd.
    exists w, s', c'.
    split; [exact Hs|]. split; [exact Hk|]. split; [exact Hd|].
    split; [exact Hm|]. split; [|exact Hp].
    intros i Hi. apply Hu. exact Hi.
  - (* Grp *)
    simpl in H. apply IH in H.
    destruct H as (w & s' & c' & Hs & Hk & Hd & Hm & Hu & Hp).
    exists w, s', ((j, firstn (length s - length s') s) :: c').
    split; [exact Hs|]. split; [exact Hk|].
    split; [constructor; exact Hd|].
    split; [|split].
    + intros i Hi. simpl in Hi. apply orb_false_iff in Hi.
      destruct Hi as [Hij Hi]. simpl. rewrite Hij. apply Hm. exact Hi.
    + intros i Hi. simpl.
      destruct (Nat.eqb i j) eqn:Hij; [discriminate|].
      simpl in Hi. rewrite Hij in Hi. apply Hu. exact Hi.
    + intros i Hi. simpl.
      destruct (Nat.eqb i j); [discriminate | auto].
  - (* Look *)
    rewrite mt_look in H.
    destruct (mt U icase r' prev s cs (fun p' s' c' => Some (p', s', c')))
      as [[[p0 s0] c0]|] eqn:Hl; [|discriminate].
    apply IH in Hl.
    destruct Hl as (w & s' & c' & Hs & Hk & Hd & Hm & Hu & Hp).
    injection Hk as _ _ ->.
    exists [], s, c0.
    split; [reflexivity|]. split; [exact H|].
    split; [rewrite Hs; constructor; exact Hd|].
    split; [|split]; auto.
  - (* WordB *)
    rewrite mt_wordb in H.
    destruct (boundary U prev s) eqn:Hb; [|discriminate].
    exists [], s, cs.
    repeat split; auto; try discriminate. constructor. exact Hb.
  - (* Bos *)
    simpl in H. destruct prev; [discriminate|].
    exists [], s, cs.
    repeat split; auto; try discriminate. constructor.
  - (* Eos *)
    simpl in H.
    assert (Hk : k prev s cs = Some res /\ (s = [] \/ s = [nl])).
    { destruct s as [|c [|d s]]; try discriminate.
      - auto.
      - destruct (N.eqb c nl) eqn:Hc; [|discriminate].
        apply N.eqb_eq in Hc. subst c. auto. }
    destruct Hk as [Hk Hs].
    exists [], s, cs.
    repeat split; auto; try discriminate.
    destruct Hs as [-> | ->]; constructor.
Qed.

End MatcherSound.

(** ** What a search returns *)

Section SearchSound.

Variable U : unicode.

Lemma firstn_consumed (w s' : str) :
  firstn (length (w ++ s') - length s') (w ++ s') = w.
Proof.
  rewrite length_app.
  replace (length w + length s' - length s') with (length w) by lia.
  rewrite firstn_app, Nat.sub_diag, firstn_all. simpl.
  apply app_nil_r.
Qed.

Lemma match_here_sound (icase : bool) (r : regex) (adv : bool)
  (prev : option char) (s : str) p' s' c' :
  match_here U icase r adv prev s = Some (p', s', c') ->
  exists w,
    s = w ++ s' /\ p' = last_char prev w /\
    den U icase r prev w s' /\
    (forall i, may_set r i = false -> get_group c' i = None) /\
    (forall i, must_set r i = true -> get_group c' i <> None).
Proof.
  unfold match_here. intro H. apply mt_sound in H.
  destruct H as (w & s1 & c1 & Hs & Hk & Hd & Hm & Hu & _).
  destruct (adv && Nat.eqb (length s1) (length s)); [discriminate|].
  injection Hk as <- <- <-.
  exists w. repeat split; auto.
Qed.

(** A match is a piece of the subject, and it is matched by the pattern
    in the place where it stands. *)
Lemma search_from_sound (icase : bool) (r : regex) (s : str) :
  forall adv skipped prev m,
    search_from U icase r adv skipped prev s = Some m ->
    exists a,
      m_skipped m = skipped ++ a /\
      s = a ++ m_text m ++ m_rest m /\
      den U icase r (last_char prev a) (m_text m) (m_rest m) /\
      (forall i, may_set r i = false -> group m i = None) /\
      (forall i, must_set r i = true -> group m i <> None).
Proof.
  assert (Hhere : forall adv skipped prev s p' s' c',
    match_here U icase r adv prev s = Some (p', s', c') ->
    exists a,
      skipped = skipped ++ a /\
      s = a ++ firstn (length s - length s') s ++ s' /\
      den U icase r (last_char prev a) (firstn (length s - length s') s) s' /\
      (forall i, may_set r i = false -> get_group c' i = None) /\
      (forall i, must_set r i = true -> get_group c' i <> None)).
  { intros adv skipped prev s0 p' s' c' Hm.
    apply match_here_sound in Hm.
    destruct Hm as (w & -> & _ & Hd & Hmay & Hmust).
    exists []. rewrite firstn_consumed, app_nil_r.
    repeat split; auto. }
  induction s as [|x s IH]; intros adv skipped prev m; simpl search_from.
  - destruct (match_here U icase r adv prev []) as [[[p' s'] c']|] eqn:Hm;
      [|discriminate].
    intro H. injection H as <-.
    exact (Hhere adv skipped prev [] p' s' c' Hm).
  - destruct (match_here U icase r adv prev (x :: s)) as [[[p' s'] c']|] eqn:Hm.
    + intro H. injection H as <-.
      exact (Hhere adv skipped prev (x :: s) p' s' c' Hm).
    + intro H. apply IH in H.
      destruct H as (a & Hsk & Hs & Hd & Hmay & Hmust).
      exists (x :: a). rewrite Hsk, <- app_assoc, last_char_cons.
      split; [reflexivity|]. split; [simpl; f_equal; exact Hs|].
      repeat split; auto.
Qed.

Lemma re_search_sound (icase : bool) (r : regex) (s : str) (m : mobj) :
  re_search U icase r s = Some m ->
  s = m_skipped m ++ m_text m ++ m_rest m /\
  den U icase r (last_char None (m_skipped m)) (m_text m) (m_rest m) /\
  (forall i, may_set r i = false -> group m i = None) /\
  (forall i, must_set r i = true -> group m i <> None).
Proof.
  unfold re_search. intro H. apply search_from_sound in H.
  destruct H as (a & Hsk & Hs & Hd & Hmay & Hmust).
  simpl in Hsk. rewrite Hsk. repeat split; auto.
Qed.

(** A match is at least as long as the least length of its pattern. *)
Lemma den_min_len (icase : bool) (r : regex) prev w rest :
  den U icase r prev w rest -> min_len r <= length w.
Proof.
  induction 1; simpl; try lia.
  - rewrite length_app. lia.
  - rewrite length_app. simpl in IHden2. destruct lo; simpl in *; lia.
Qed.

Lemma den_seq_inv (icase : bool) (a b : regex) prev w rest :
  den U icase (Seq a b) prev w rest ->
  exists w1 w2, w = w1 ++ w2 /\
    den U icase a prev w1 (w2 ++ rest) /\
    den U icase b (last_char prev w1) w2 rest.
Proof.
  intro H. inversion H; subst. eauto.
Qed.

Lemma den_lit_str (x : str) :
  forall prev w rest, den U false (lit_str x) prev w rest -> w = x.
Proof.
  induction x as [|c x IH]; intros prev w rest H.
  - inversion H; subst. reflexivity.
  - change (lit_str (c :: x)) with (Seq (chr c) (lit_str x)) in H.
    apply den_seq_inv in H. destruct H as (w1 & w2 & -> & H1 & H2).
    apply IH in H2. subst w2.
    unfold chr in H1. inversion H1; subst.
    match goal with
    | Hc : class_match _ _ _ _ = true |- _ =>
        rewrite class_match_chr in Hc; apply N.eqb_eq in Hc; subst
    end.
    reflexivity.
Qed.

(** A repeated character class matches a run of characters of the class,
    within the bounds of the repetition. *)
Lemma den_rep_chr (icase : bool) (items : list citem) (r : regex)
  prev w rest :
  den U icase r prev w rest ->
  forall lo hi g, r = Rep (Chr items) lo hi g ->
    Forall (fun c => class_match U icase items c = true) w /\
    lo <= length w /\
    (forall h, hi = Some h -> length w <= h).
Proof.
  induction 1; intros lo' hi' g' E; try discriminate.
  - injection E as -> <- -> ->.
    split; [constructor|]. split; [simpl; lia|]. intros; simpl; lia.
  - injection E as -> -> -> ->.
    destruct (IHden2 (pred lo') (option_map pred hi') g' eq_refl)
      as (Hall & Hlo & Hhi).
    inversion H1; subst.
    split; [constructor; assumption|].
    split; [simpl; lia|].
    intros h Hh. subst hi'. simpl in *.
    specialize (Hhi (pred h) eq_refl).
    apply Nat.ltb_lt in H0. lia.
Qed.

End SearchSound.

(** ** When extract_experience raises *)

Section ExperienceRaises.

Variable U : unicode.

Lemma split_loop_step (fuel : nat) (icase : bool) (r : regex) adv prev s :
  split_loop U (S fuel) icase r adv prev s
  = match search_from U icase r adv [] prev s with
    | None => [Some s]
    | Some m =>
        Some (m_skipped m)
          :: map (group m) (seq 1 (ngroups r))
          ++ split_loop U fuel icase r (negb (nonempty (m_text m)))
               (m_prev m) (m_rest m)
    end.
Proof. reflexivity. Qed.

Lemma re_split_no_match (icase : bool) (r : regex) (s : str) :
  re_search U icase r s = None -> re_split U icase r s = [Some s].
Proof.
  unfold re_search, re_split. intro H.
  replace (2 * length s + 2) with (S (2 * length s + 1)) by lia.
  rewrite split_loop_step, H. reflexivity.
Qed.

Lemma re_split_match (icase : bool) (r : regex) (s : str) (m : mobj) :
  re_search U icase r s = Some m ->
  exists rest,
    re_split U icase r s
    = Some (m_skipped m) :: map (group m) (seq 1 (ngroups r)) ++ rest /\
    rest <> [].
Proof.
  unfold re_search, re_split. intro H.
  replace (2 * length s + 2) with (S (2 * length s + 1)) by lia.
  rewrite split_loop_step, H. eexists. split; [reflexivity|].
  destruct (2 * length s + 1); simpl; [discriminate|].
  destruct (search_from U icase r _ [] (m_prev m) (m_rest m)); discriminate.
Qed.

(** Every match of the date-range pattern leaves group 1 or group 3
    unset: the months are captured by the first alternative only, and
    present|current|now by the third only. *)
Lemma date_pattern_unset_group (m : mobj) (s : str) :
  re_search U true date_pattern s = Some m ->
  group m 1 = None \/ group m 3 = None.
Proof.
  unfold re_search. generalize (@nil char) as skipped.
  generalize (@None char) as prev. generalize false as adv.
  induction s as [|x s IH]; intros adv prev skipped; simpl search_from.
  - destruct (match_here U true date_pattern adv prev [])
      as [[[p' s'] c']|] eqn:Hm; [|discriminate].
    intro H. injection H as <-. unfold group. cbn [m_caps].
    revert Hm. unfold date_pattern, date_range. cbn [alts].
    unfold match_here. cbn [mt]. unfold orelse.
    match goal with
    | |- match ?A with _ => _ end = _ -> _ => destruct A as [ra|] eqn:Ha
    end.
    + intro E. injection E as ->. apply mt_sound in Ha.
      destruct Ha as (w & s1 & c1 & _ & Hk & _ & Hmay & _).
      destruct (adv && _); [discriminate|]. injection Hk as _ _ <-.
      right. apply (Hmay 3). reflexivity.
    + match goal with
      | |- match ?A with _ => _ end = _ -> _ => destruct A as [rb|] eqn:Hb
      end.
      * intro E. injection E as ->. apply mt_sound in Hb.
        destruct Hb as (w & s1 & c1 & _ & Hk & _ & Hmay & _).
        destruct (adv && _); [discriminate|]. injection Hk as _ _ <-.
        left. apply (Hmay 1). reflexivity.
      * intro Hc. apply mt_sound in Hc.
        destruct Hc as (w & s1 & c1 & _ & Hk & _ & Hmay & _).
        destruct (adv && _); [discriminate|]. injection Hk as _ _ <-.
        left. apply (Hmay 1). reflexivity.
  - destruct (match_here U true date_pattern adv prev (x :: s))
      as [[[p' s'] c']|] eqn:Hm; [|apply IH].
    intro H. injection H as <-. unfold group. cbn [m_caps].
    revert Hm. unfold date_pattern, date_range. cbn [alts].
    unfold match_here. cbn [mt]. unfold orelse.
    match goal with
    | |- match ?A with _ => _ end = _ -> _ => destruct A as [ra|] eqn:Ha
    end.
    + intro E. injection E as ->. apply mt_sound in Ha.
      destruct Ha as (w & s1 & c1 & _ & Hk & _ & Hmay & _).
      destruct (adv && _); [discriminate|]. injection Hk as _ _ <-.
      right. apply (Hmay 3). reflexivity.
    + match goal with
      | |- match ?A with _ => _ end = _ -> _ => destruct A as [rb|] eqn:Hb
      end.
      * intro E. injection E as ->. apply mt_sound in Hb.
        destruct Hb as (w & s1 & c1 & _ & Hk & _ & Hmay & _).
        destruct (adv && _); [discriminate|]. injection Hk as _ _ <-.
        left. apply (Hmay 1). reflexivity.
      * intro Hc. apply mt_sound in Hc.
        destruct Hc as (w & s1 & c1 & _ & Hk & _ & Hmay & _).
        destruct (adv && _); [discriminate|]. injection Hk as _ _ <-.
        left. apply (Hmay 1). reflexivity.
Qed.

End ExperienceRaises.

Section ExperienceOutcome.

Variable U : unicode.

Lemma for_each_hits_none {B} (body : option str -> B -> result B)
  (xs : list (option str)) :
  (forall acc, body None acc = Raise AttributeError) ->
  In None xs ->
  forall acc, for_each xs acc body = Raise AttributeError.
Proof.
  intros Hnone. induction xs as [|x xs IH]; intros Hin acc; [destruct Hin|].
  simpl. destruct Hin as [-> | Hin].
  - rewrite Hnone. reflexivity.
  - destruct (body x acc) as [acc'|[]]; simpl; [apply IH; exact Hin|].
    reflexivity.
Qed.

Lemma first_search_must (icase : bool) (pats : list regex) (i : nat)
  (s : str) (m : mobj) :
  Forall (fun p => must_set p i = true) pats ->
  first_search U icase pats s = Some m ->
  group m i <> None.
Proof.
  induction 1 as [|p pats Hp _ IH]; simpl; [discriminate|].
  destruct (re_search U icase p s) as [m'|] eqn:Hs; [|exact IH].
  intro E. injection E as ->.
  apply re_search_sound in Hs. destruct Hs as (_ & _ & _ & Hmust).
  apply Hmust. exact Hp.
Qed.

(** Each of the three company patterns has its group 1 in every match, so
    [group(1).strip()] never meets [None]. *)
Lemma find_company_returns (e : str) : exists c, find_company U e = Ok c.
Proof.
  unfold find_company.
  destruct (first_search U false company_patterns e) as [m|] eqn:Hs;
    [|eauto].
  apply first_search_must with (i := 1) in Hs.
  - destruct (group m 1); [eauto | congruence].
  - repeat constructor.
Qed.

Lemma experience_entry_returns (e : str) (acc : list ExperienceRecord) :
  exists acc', experience_entry U (Some e) acc = Ok acc'.
Proof.
  unfold experience_entry.
  destruct (Nat.ltb _ 15 || _); [eauto|].
  destruct (find_company_returns e) as [c ->]. simpl.
  destruct (truthy _ || truthy _); eauto.
Qed.

Lemma re_search_date_nil : re_search U true date_pattern [] = None.
Proof. reflexivity. Qed.

(** A date range in the section: the list of entries holds a [None]. *)
Lemma date_range_raises (text : str) (m : mobj) :
  re_search U true date_pattern (section_of U Experience text) = Some m ->
  extract_experience U text = Raise AttributeError.
Proof.
  intros Hm. unfold extract_experience.
  destruct (nonempty (section_of U Experience text)) eqn:Hne.
  - apply for_each_hits_none; [reflexivity|].
    unfold experience_entries.
    destruct (re_split_match U true date_pattern _ Hm) as (rest & -> & Hrest).
    change (ngroups date_pattern) with 3. cbn [seq map app length].
    destruct (date_pattern_unset_group U _ Hm) as [-> | ->];
      simpl; auto.
  - destruct (section_of U Experience text); [|discriminate].
    rewrite re_search_date_nil in Hm. discriminate.
Qed.

(** No date range in the section: the entries are those of the year-line
    split, all strings, and every entry is processed without an error. *)
Lemma no_date_range_returns (text : str) :
  re_search U true date_pattern (section_of U Experience text) = None ->
  exists l, extract_experience U text = Ok l.
Proof.
  intro Hm. unfold extract_experience.
  destruct (nonempty (section_of U Experience text)); [|eauto].
  unfold experience_entries. rewrite (re_split_no_match U _ _ _ Hm).
  cbn [length Nat.leb].
  apply for_each_total with (Q := fun e : option str => e <> None).
  - intros [e|] acc He; [|congruence]. apply experience_entry_returns.
  - apply split_loop_groupless. reflexivity.
Qed.

(** X1: [extract_experience] raises AttributeError exactly when the text of
    the Experience section contains a date range, that is, a match of
    [date_pattern]; in every other case it returns a list. *)
Theorem extract_experience_raises_iff (text : str) :
  (extract_experience U text = Raise AttributeError <->
   re_search U true date_pattern (section_of U Experience text) <> None) /\
  ((exists l, extract_experience U text = Ok l) <->
   re_search U true date_pattern (section_of U Experience text) = None).
Proof.
  destruct (re_search U true date_pattern (section_of U Experience text))
    as [m|] eqn:Hm.
  - pose proof (date_range_raises text Hm) as Hr. split; split.
    + discriminate.
    + intros _. exact Hr.
    + intros [l Hl]. congruence.
    + discriminate.
  - destruct (no_date_range_returns text Hm) as [l Hl]. split; split.
    + congruence.
    + congruence.
    + reflexivity.
    + eauto.
Qed.

(** The extraction step of [parse_resume] fails in that case and in no
    other. *)
Lemma parse_resume_extract_outcome (text : str) :
  match parse_resume_extract U text with
  | Raise _ =>
      re_search U true date_pattern (section_of U Experience text) <> None
  | Ok p =>
      re_search U true date_pattern (section_of U Experience text) = None /\
      name p = extract_name U text /\ email p = extract_email U text /\
      phone p = extract_phone U text /\ skills p = extract_skills U text /\
      extract_education U text = Ok (education p) /\
      extract_experience U text = Ok (experience p) /\
      extract_projects U text = Ok (projects p)
  end.
Proof.
  unfold parse_resume_extract.
  destruct (extract_education_returns U text) as [ed Hed].
  destruct (extract_projects_returns U text) as [pr Hpr].
  rewrite Hed, Hpr. simpl.
  destruct (re_search U true date_pattern (section_of U Experience text))
    as [m|] eqn:Hm.
  - rewrite (date_range_raises text Hm). simpl. discriminate.
  - destruct (no_date_range_returns text Hm) as [ex ->]. simpl.
    repeat split; auto.
Qed.

End ExperienceOutcome.

(** ** extract_email and extract_phone *)

Section Contact.

Variable U : unicode.

Lemma den_grp_inv (icase : bool) (i : nat) (r : regex) prev w rest :
  den U icase (Grp i r) prev w rest -> den U icase r prev w rest.
Proof. intro H. inversion H; subst. assumption. Qed.

Lemma den_opt_inv (icase : bool) (r : regex) (g : bool) prev w rest :
  den U icase (Rep r 0 (Some 1) g) prev w rest ->
  w = [] \/ den U icase r prev w rest.
Proof.
  intro H. inversion H; subst; [left; reflexivity|].
  right.
  match goal with
  | H2 : den _ _ (Rep _ _ _ _) _ ?w2 _ |- _ =>
      simpl in H2; inversion H2; subst
  end.
  - rewrite app_nil_r. assumption.
  - discriminate.
Qed.

Lemma den_times_digit (n : nat) prev w rest :
  den U false (times n digit) prev w rest ->
  length w = n /\ Forall (fun c => isdigit U c = true) w.
Proof.
  intro H.
  destruct (den_rep_chr H (lo := n) (hi := Some n) (g := true) eq_refl)
    as (Hall & Hlo & Hhi).
  specialize (Hhi n eq_refl). split; [lia|].
  eapply Forall_impl; [|exact Hall]. simpl. intros c Hc.
  unfold class_match, item_match in Hc. simpl in Hc.
  rewrite !orb_false_r in Hc. exact Hc.
Qed.

Lemma den_opt_short (r : regex) (g : bool) prev w rest :
  (forall p x y, den U false r p x y -> length x = 1) ->
  den U false (Rep r 0 (Some 1) g) prev w rest -> length w <= 1.
Proof.
  intros Hr H. apply den_opt_inv in H. destruct H as [-> | H].
  - simpl. lia.
  - apply Hr in H. lia.
Qed.

Lemma den_chr_one (items : list citem) p x y :
  den U false (Chr items) p x y -> length x = 1.
Proof. intro H. inversion H; subst. reflexivity. Qed.

Lemma den_lit_one (a : string) p x y :
  length (py a) = 1 -> den U false (lit a) p x y -> length x = 1.
Proof.
  intros Ha H. unfold lit in H. apply den_lit_str in H. subst. exact Ha.
Qed.

Lemma email_local_class (c : char) :
  class_match U false
    [az; AZ; d09; CChar (ch "."); CChar (ch "_"); CChar (ch "%");
     CChar (ch "+"); CChar (ch "-")] c
  = email_local_char c.
Proof.
  unfold class_match, item_match, email_local_char, between, az, AZ, d09.
  cbn [existsb andb in_item].
  rewrite !orb_false_r, !orb_assoc. reflexivity.
Qed.

Lemma email_domain_class (c : char) :
  class_match U false [az; AZ; d09; CChar (ch "."); CChar (ch "-")] c
  = email_domain_char c.
Proof.
  unfold class_match, item_match, email_domain_char, between, az, AZ, d09.
  cbn [existsb andb in_item].
  rewrite !orb_false_r, !orb_assoc. reflexivity.
Qed.

Lemma ascii_letter_class (c : char) :
  class_match U false [az; AZ] c = ascii_letter c.
Proof.
  unfold class_match, item_match, ascii_letter, between, az, AZ.
  cbn [existsb andb in_item].
  rewrite !orb_false_r. reflexivity.
Qed.

(** What the email pattern matches. *)
Lemma email_den_shape prev (e : str) rest :
  den U false email_pattern prev e rest ->
  exists local domain tld,
    e = local ++ ch "@" :: domain ++ ch "." :: tld /\
    local <> [] /\ domain <> [] /\ 2 <= length tld /\
    Forall (fun c => email_local_char c = true) local /\
    Forall (fun c => email_domain_char c = true) domain /\
    Forall (fun c => ascii_letter c = true) tld.
Proof.
  intro Hd. unfold email_pattern in Hd. cbn [seqs] in Hd.
  apply den_seq_inv in Hd. destruct Hd as (local & w1 & Hw & Hlocal & Hd).
  apply den_seq_inv in Hd. destruct Hd as (at_ & w2 & -> & Hat & Hd).
  apply den_seq_inv in Hd. destruct Hd as (domain & w3 & -> & Hdom & Hd).
  apply den_seq_inv in Hd. destruct Hd as (dot & tld & -> & Hdot & Htld).
  unfold lit in Hat, Hdot.
  apply den_lit_str in Hat. apply den_lit_str in Hdot. subst at_ dot.
  destruct (den_rep_chr Hlocal (lo := 1) (hi := None) (g := true) eq_refl)
    as (Hl1 & Hl2 & _).
  destruct (den_rep_chr Hdom (lo := 1) (hi := None) (g := true) eq_refl)
    as (Hd1 & Hd2 & _).
  destruct (den_rep_chr Htld (lo := 2) (hi := None) (g := true) eq_refl)
    as (Ht1 & Ht2 & _).
  exists local, domain, tld.
  split; [exact Hw|].
  split; [intro E; subst local; simpl in Hl2; lia|].
  split; [intro E; subst domain; simpl in Hd2; lia|].
  split; [exact Ht2|].
  split; [|split].
  - eapply Forall_impl; [|exact Hl1]. intros c Hc.
    cbv beta in Hc. rewrite email_local_class in Hc. exact Hc.
  - eapply Forall_impl; [|exact Hd1]. intros c Hc.
    cbv beta in Hc. rewrite email_domain_class in Hc. exact Hc.
  - eapply Forall_impl; [|exact Ht1]. intros c Hc.
    cbv beta in Hc. rewrite ascii_letter_class in Hc. exact Hc.
Qed.

(** X3: an email returned by [extract_email] is a piece of the text of the
    form local@domain.tld: a non-empty local part of letters, digits and
    ._%+-, a non-empty domain of letters, digits, dots and hyphens, and a
    last label of at least two ASCII letters. *)
Theorem extract_email_shape (text e : str) :
  extract_email U text = Some e ->
  exists before after local domain tld,
    text = before ++ e ++ after /\
    e = local ++ ch "@" :: domain ++ ch "." :: tld /\
    local <> [] /\ domain <> [] /\ 2 <= length tld /\
    Forall (fun c => email_local_char c = true) local /\
    Forall (fun c => email_domain_char c = true) domain /\
    Forall (fun c => ascii_letter c = true) tld.
Proof.
  unfold extract_email.
  destruct (re_search U false email_pattern text) as [m|] eqn:Hs;
    [|discriminate].
  intro E. injection E as <-.
  apply re_search_sound in Hs. destruct Hs as (Htext & Hd & _).
  apply email_den_shape in Hd.
  destruct Hd as (local & domain & tld & He & H).
  exists (m_skipped m), (m_rest m), local, domain, tld.
  split; [exact Htext|]. split; [exact He | exact H].
Qed.

(** X5: a phone number returned by [extract_phone] is a piece of the text that
    ends with three, three and four digits, the first two groups followed
    by at most two and at most one other characters. *)
Theorem extract_phone_shape (text p : str) :
  extract_phone U text = Some p ->
  exists before after pre area mid exch sep line,
    text = before ++ p ++ after /\
    p = pre ++ area ++ mid ++ exch ++ sep ++ line /\
    length area = 3 /\ length exch = 3 /\ length line = 4 /\
    Forall (fun c => isdigit U c = true) (area ++ exch ++ line) /\
    length mid <= 2 /\ length sep <= 1.
Proof.
  unfold extract_phone.
  destruct (re_search U false phone_pattern text) as [m|] eqn:Hs;
    [|discriminate].
  intro E. injection E as <-.
  apply re_search_sound in Hs. destruct Hs as (Htext & Hd & _).
  unfold phone_pattern in Hd.
  apply den_seq_inv in Hd. destruct Hd as (cc & w0 & Hw & _ & Hd).
  apply den_grp_inv in Hd. cbn [seqs] in Hd.
  apply den_seq_inv in Hd. destruct Hd as (o1 & w1 & -> & _ & Hd).
  apply den_seq_inv in Hd. destruct Hd as (area & w2 & -> & Harea & Hd).
  apply den_seq_inv in Hd. destruct Hd as (o2 & w3 & -> & Ho2 & Hd).
  apply den_seq_inv in Hd. destruct Hd as (s1 & w4 & -> & Hs1 & Hd).
  apply den_seq_inv in Hd. destruct Hd as (exch & w5 & -> & Hexch & Hd).
  apply den_seq_inv in Hd. destruct Hd as (s2 & line & -> & Hs2 & Hline).
  apply den_times_digit in Harea, Hexch, Hline.
  destruct Harea as [Ha1 Ha2]. destruct Hexch as [He1 He2].
  destruct Hline as [Hl1 Hl2].
  apply den_opt_short in Ho2;
    [|intros q x y Hq; eapply den_lit_one; [|exact Hq]; reflexivity].
  apply den_opt_short in Hs1; [|intros; eapply den_chr_one; eauto].
  apply den_opt_short in Hs2; [|intros; eapply den_chr_one; eauto].
  exists (m_skipped m), (m_rest m), (cc ++ o1), area, (o2 ++ s1), exch, s2, line.
  split; [exact Htext|].
  split; [rewrite Hw, <- !app_assoc; reflexivity|].
  split; [exact Ha1|]. split; [exact He1|]. split; [exact Hl1|].
  split; [rewrite !Forall_app; auto|].
  split; [rewrite length_app; lia | exact Hs2].
Qed.

End Contact.

Lemma extract_email_shape_witness :
  exists before after local domain tld,
    jane = before ++ py "jane.smith@mail.com" ++ after /\
    py "jane.smith@mail.com" = local ++ ch "@" :: domain ++ ch "." :: tld /\
    local <> [] /\ domain <> [] /\ 2 <= length tld /\
    Forall (fun c => email_local_char c = true) local /\
    Forall (fun c => email_domain_char c = true) domain /\
    Forall (fun c => ascii_letter c = true) tld.
Proof.
  apply (extract_email_shape ascii_tables jane).
  vm_compute. reflexivity.
Defined.

Lemma extract_phone_shape_witness :
  exists before after pre area mid exch sep line,
    jane = before ++ py "555-222-3344" ++ after /\
    py "555-222-3344" = pre ++ area ++ mid ++ exch ++ sep ++ line /\
    length area = 3 /\ length exch = 3 /\ length line = 4 /\
    Forall (fun c => isdigit ascii_tables c = true) (area ++ exch ++ line) /\
    length mid <= 2 /\ length sep <= 1.
Proof.
  apply (extract_phone_shape ascii_tables jane).
  vm_compute. reflexivity.
Defined.

(** ** Stripping *)

Lemma lstrip_by_split (p : char -> bool) (s : str) :
  exists a, s = a ++ lstrip_by p s /\ Forall (fun c => p c = true) a.
Proof.
  induction s as [|c s IH]; simpl.
  - exists []. split; [reflexivity | constructor].
  - destruct (p c) eqn:Hc.
    + destruct IH as (a & Hs & Ha). exists (c :: a).
      split; [simpl; f_equal; exact Hs | constructor; assumption].
    + exists []. split; [reflexivity | constructor].
Qed.

Lemma lstrip_by_head (p : char -> bool) (s : str) (c : char) (t : str) :
  lstrip_by p s = c :: t -> p c = false.
Proof.
  induction s as [|x s IH]; simpl; [discriminate|].
  destruct (p x) eqn:Hx; [exact IH|].
  intro E. injection E as <- _. exact Hx.
Qed.

Lemma rstrip_by_split (p : char -> bool) (s : str) :
  exists b, s = rstrip_by p s ++ b /\ Forall (fun c => p c = true) b.
Proof.
  unfold rstrip_by.
  destruct (lstrip_by_split p (rev s)) as (a & Hs & Ha).
  exists (rev a). split.
  - rewrite <- rev_app_distr, <- Hs, rev_involutive. reflexivity.
  - apply Forall_rev. exact Ha.
Qed.

Lemma rstrip_by_last (p : char -> bool) (s : str) (t : str) (c : char) :
  rstrip_by p s = t ++ [c] -> p c = false.
Proof.
  unfold rstrip_by. intro E.
  apply (f_equal (@rev char)) in E.
  rewrite rev_involutive, rev_app_distr in E. simpl in E.
  eapply lstrip_by_head. exact E.
Qed.

(** [strip] removes a run of the stripped characters at each end and
    leaves a string that begins and ends with none. *)
Lemma strip_by_spec (p : char -> bool) (s : str) :
  (exists a b, s = a ++ strip_by p s ++ b /\
               Forall (fun c => p c = true) a /\
               Forall (fun c => p c = true) b) /\
  trimmed p (strip_by p s).
Proof.
  unfold strip_by.
  destruct (lstrip_by_split p s) as (a & Hs & Ha).
  destruct (rstrip_by_split p (lstrip_by p s)) as (b & Hl & Hb).
  split.
  - exists a, b. split; [|split; assumption].
    rewrite <- Hl. exact Hs.
  - split.
    + intros c t E. rewrite E in Hl. simpl in Hl.
      eapply lstrip_by_head. exact Hl.
    + intros t c E. eapply rstrip_by_last. exact E.
Qed.

Lemma strip_by_length (p : char -> bool) (s : str) :
  length (strip_by p s) <= length s.
Proof.
  destruct (strip_by_spec p s) as [(a & b & Hs & _) _].
  rewrite Hs at 2. rewrite !length_app. lia.
Qed.

(** ** The name *)

(** X6: a name returned by [extract_name] is one of the first five lines with
    the whitespace at its two ends removed: it is shorter than 40 and
    neither begins nor ends with whitespace. *)
Theorem extract_name_trimmed (U : unicode) (text n : str) :
  extract_name U text = Some n ->
  length n < 40 /\
  trimmed (isspace U) n /\
  exists line a b,
    In line (firstn 5 (split_on nl text)) /\
    line = a ++ n ++ b /\
    Forall (fun c => isspace U c = true) a /\
    Forall (fun c => isspace U c = true) b.
Proof.
  intro H. unfold extract_name in H.
  pose proof (first_name_line_spec U (firstn 5 (split_on nl text))) as Hspec.
  rewrite H in Hspec.
  destruct Hspec as (pre & line & post & Hlines & _ & [Hlen _] & ->).
  unfold strip.
  destruct (strip_by_spec (isspace U) line) as [(a & b & Hs & Ha & Hb) Ht].
  pose proof (strip_by_length (isspace U) line).
  split; [lia|]. split; [exact Ht|].
  exists line, a, b. split; [|auto].
  rewrite Hlines. apply in_or_app. right. left. reflexivity.
Qed.

Lemma extract_name_trimmed_witness :
  length (py "Jane Smith") < 40 /\ trimmed ascii_isspace (py "Jane Smith").
Proof.
  destruct (@extract_name_trimmed ascii_tables jane (py "Jane Smith"))
    as (Hl & Ht & _);
    [vm_compute; reflexivity | split; [exact Hl | exact Ht]].
Defined.

(** ** Projects *)

(** X7: every project that [extract_projects] emits has a non-empty name that
    neither begins nor ends with a bullet, star, hyphen, tab, space, dot
    or closing parenthesis, and a description without whitespace at its
    ends; and [extract_projects] always returns. *)
Theorem extract_projects_names (U : unicode) (text : str) :
  exists l,
    extract_projects U text = Ok l /\
    Forall (fun r =>
              proj_name r <> [] /\
              trimmed (fun c => existsb (N.eqb c) bullet_chars) (proj_name r) /\
              trimmed (isspace U) (proj_description r)) l.
Proof.
  destruct (extract_projects_returns U text) as [l Hl].
  exists l. split; [exact Hl|].
  revert Hl. unfold extract_projects.
  destruct (nonempty _); [|intro H; injection H as <-; constructor].
  apply for_each_invariant; [|constructor].
  intros entry acc acc' Hacc. unfold project_entry.
  destruct entry as [e|]; [|discriminate].
  destruct (Nat.ltb _ 15 || _); [intro H; injection H as <-; exact Hacc|].
  destruct (nonempty (strip_chars _ _)) eqn:Hn;
    intro H; injection H as <-; [|exact Hacc].
  apply Forall_app. split; [exact Hacc|].
  constructor; [|constructor]. simpl.
  split; [apply nonempty_true; exact Hn|].
  split; [apply strip_by_spec|].
  destruct (Nat.ltb 1 _); [apply strip_by_spec|].
  split; [discriminate | intros [|? ?] ? E; discriminate].
Qed.

(** ** Sections and headers *)

Section Headers.

Variable U : unicode.
Variable k : SectionKind.

Lemma scan_lines_no_header (lines : list str) :
  Forall (fun line => is_header k (strip U (lower U line)) = false) lines ->
  forall st i, in_section st = false -> scan_lines U k st i lines = st.
Proof.
  induction 1 as [|line lines Hl _ IH]; intros st i Hst; simpl.
  - reflexivity.
  - unfold scan_step. rewrite Hl, Hst. simpl. apply IH. exact Hst.
Qed.

End Headers.

(** X8: without a header line of a kind there is no section of that kind and
    its extractor returns the empty list; for [extract_experience] this
    is a case in which it returns. *)
Theorem no_header_no_records (U : unicode) (k : SectionKind) (text : str) :
  Forall (fun line => is_header k (strip U (lower U line)) = false)
         (split_on nl text) ->
  scan U k text = scan_init /\ kind_is_empty U k text.
Proof.
  intro H.
  assert (Hscan : scan U k text = scan_init).
  { unfold scan. apply scan_lines_no_header; [exact H | reflexivity]. }
  split; [exact Hscan|].
  destruct k; unfold kind_is_empty, extract_education, extract_experience,
    extract_projects, section_of; rewrite Hscan; reflexivity.
Qed.

Lemma no_header_no_records_witness :
  extract_experience ascii_tables
    (doc ["Jane Smith"; "Worked from 2019 - 2021 at Acme"]%string) = Ok [].
Proof.
  apply (no_header_no_records ascii_tables Experience
           (doc ["Jane Smith"; "Worked from 2019 - 2021 at Acme"]%string)).
  vm_compute. repeat constructor.
Defined.

(** X9: the section of a kind begins with the first line that is a header of
    that kind: the lines before it are left out, whatever they hold, and
    the section text starts with that line and a newline. *)
Theorem section_starts_at_first_header
  (U : unicode) (k : SectionKind) (text : str) (pre : list str) (line : str)
  (post : list str) :
  split_on nl text = pre ++ line :: post ->
  Forall (fun l => is_header k (strip U (lower U l)) = false) pre ->
  is_header k (strip U (lower U line)) = true ->
  hd_error (taken (scan U k text)) = Some (length pre) /\
  exists tail, section_of U k text = line ++ nl :: tail.
Proof.
  intros Hsplit Hpre Hhdr.
  assert (Hbefore : scan_lines U k scan_init 0 pre = scan_init).
  { apply scan_lines_no_header; [exact Hpre | reflexivity]. }
  assert (Hscan : scan U k text
                  = scan_lines U k (append_line true scan_init (length pre) line)
                      (S (length pre)) post).
  { unfold scan. rewrite Hsplit, scan_lines_app by reflexivity.
    rewrite Hbefore. simpl. unfold scan_step. rewrite Hhdr. reflexivity. }
  destruct (scan_lines_spec U k post
              (append_line true scan_init (length pre) line) (S (length pre)))
    as (new & Ht & Hx & _).
  split.
  - rewrite Hscan, Ht. reflexivity.
  - unfold section_of. rewrite Hscan, Hx. simpl.
    rewrite <- app_assoc. simpl. eauto.
Qed.

Lemma section_starts_at_first_header_witness :
  hd_error (taken (scan ascii_tables Education jane)) = Some 4.
Proof.
  refine (proj1 (@section_starts_at_first_header ascii_tables Education jane
    [py "Jane Smith"; py "jane.smith@mail.com"; py "555-222-3344"; []]
    (py "Education")
    [py "BS Computer Science"; py "State University"; py "2019"; [];
     py "Experience"; py "Software Engineer at Acme Corp";
     py "2020 - Present"; []] _ _ _)).
  - vm_compute. reflexivity.
  - vm_compute. repeat constructor.
  - vm_compute. reflexivity.
Defined.

(** ** More on the skills *)

Section SkillEdges.

Variable U : unicode.

Lemma last_char_some_app (a w : str) (c : char) :
  last_char None w = Some c -> last_char None (a ++ w) = Some c.
Proof.
  intro H. rewrite last_char_app.
  unfold last_char in *. destruct (rev w); [discriminate | exact H].
Qed.

Lemma extract_skills_filter (text : str) :
  extract_skills U text = filter (skill_found U text) skill_keywords.
Proof.
  unfold extract_skills. rewrite found_skills_filter. reflexivity.
Qed.

(** X10: the two \b of the search look at the characters next to the keyword.
    A keyword that ends with a non-word character, such as "c++" or "c#",
    is found only where a word character follows it directly, and one
    that begins with a non-word character, such as ".net", only where a
    word character comes directly before it. *)
Theorem skill_with_symbol_edge (text w : str) :
  In w (extract_skills U text) ->
  (forall c, last_char None w = Some c -> isword U c = false ->
     exists a x b, lower U text = a ++ w ++ x :: b /\ isword U x = true) /\
  (forall c t, w = c :: t -> isword U c = false ->
     exists a x b, lower U text = a ++ x :: w ++ b /\ isword U x = true).
Proof.
  intro Hin.
  assert (Hocc : occurs_word_bounded U w (lower U text)).
  { rewrite extract_skills_filter in Hin.
    apply filter_In in Hin. destruct Hin as [_ Hf].
    apply skill_found_occurs. exact Hf. }
  destruct Hocc as (a & b & Ht & Hb1 & Hb2).
  split.
  - intros c Hlast Hc.
    rewrite (last_char_some_app a w Hlast) in Hb2.
    unfold boundary in Hb2. simpl in Hb2. rewrite Hc in Hb2. simpl in Hb2.
    destruct b as [|x b]; [discriminate|]. simpl in Hb2.
    exists a, x, b. split; [exact Ht | exact Hb2].
  - intros c t -> Hc.
    unfold boundary in Hb1. simpl in Hb1. rewrite Hc in Hb1.
    rewrite xorb_false_r in Hb1.
    unfold word_before, last_char in Hb1.
    destruct (rev a) as [|x ra] eqn:Ha; [discriminate|].
    exists (rev ra), x, b. split; [|exact Hb1].
    apply (f_equal (@rev char)) in Ha. rewrite rev_involutive in Ha.
    simpl in Ha. rewrite Ht, Ha, <- app_assoc. reflexivity.
Qed.

(** X11: no skill is listed twice, however often the text mentions it. *)
Theorem extract_skills_no_duplicates (text : str) :
  NoDup (extract_skills U text).
Proof.
  rewrite extract_skills_filter.
  apply NoDup_filter.
  assert (H : nodup (list_eq_dec N.eq_dec) skill_keywords = skill_keywords)
    by (vm_compute; reflexivity).
  rewrite <- H. apply NoDup_nodup.
Qed.

End SkillEdges.

Lemma skill_with_symbol_edge_witness :
  exists a x b,
    lower ascii_tables (py "C++14 and more")
    = a ++ py "c++" ++ x :: b /\ isword ascii_tables x = true.
Proof.
  refine (proj1 (@skill_with_symbol_edge ascii_tables
                   (py "C++14 and more") (py "c++") _) (ch "+") _ _);
    vm_compute; auto.
Defined.

(** ** File types *)

Lemma str_eqb_eq (a b : str) : str_eqb a b = true <-> a = b.
Proof.
  unfold str_eqb. destruct (list_eq_dec N.eq_dec a b); split;
    congruence.
Qed.

Lemma firstn_is (n : nat) (b magic : bytes) :
  length magic = n ->
  (firstn n b = magic <-> exists rest, b = magic ++ rest).
Proof.
  intro Hn. split.
  - intro H. exists (skipn n b). rewrite <- H. symmetry.
    apply firstn_skipn.
  - intros [rest ->]. rewrite <- Hn.
    rewrite firstn_app, Nat.sub_diag, firstn_all. simpl.
    apply app_nil_r.
Qed.

(** X13: a file is taken for a PDF exactly when it starts with the four bytes
    "%PDF" and for a DOCX exactly when it starts with "PK", 3, 4; no file
    is both, and a file shorter than four bytes is neither. *)
Theorem file_type_by_magic (file_bytes : bytes) :
  (is_pdf file_bytes = true <->
   exists rest, file_bytes = [37; 80; 68; 70]%N ++ rest) /\
  (is_docx file_bytes = true <->
   exists rest, file_bytes = [80; 75; 3; 4]%N ++ rest) /\
  (is_pdf file_bytes && is_docx file_bytes = false) /\
  (length file_bytes < 4 ->
   is_pdf file_bytes = false /\ is_docx file_bytes = false).
Proof.
  assert (Hpdf : is_pdf file_bytes = true <->
                 exists rest, file_bytes = [37; 80; 68; 70]%N ++ rest).
  { unfold is_pdf. rewrite str_eqb_eq. apply firstn_is. reflexivity. }
  assert (Hdocx : is_docx file_bytes = true <->
                  exists rest, file_bytes = [80; 75; 3; 4]%N ++ rest).
  { unfold is_docx. rewrite str_eqb_eq. apply firstn_is. reflexivity. }
  split; [exact Hpdf|]. split; [exact Hdocx|]. split.
  - destruct (is_pdf file_bytes); [|reflexivity].
    destruct (is_docx file_bytes); [|reflexivity].
    destruct (proj1 Hpdf eq_refl) as [r1 E1].
    destruct (proj1 Hdocx eq_refl) as [r2 E2].
    rewrite E1 in E2. discriminate.
  - intro Hlen. split.
    + destruct (is_pdf file_bytes); [|reflexivity].
      destruct (proj1 Hpdf eq_refl) as [r1 E1].
      rewrite E1 in Hlen. simpl in Hlen. lia.
    + destruct (is_docx file_bytes); [|reflexivity].
      destruct (proj1 Hdocx eq_refl) as [r2 E2].
      rewrite E2 in Hlen. simpl in Hlen. lia.
Qed.

(** ** The endpoints *)

Section Endpoints.

Variable U : unicode.
Variable requests_get : str -> outcome response.
Variable http_error_message : response -> str.
Variable pdf_pages : bytes -> option (list (option str)).
Variable docx_paragraphs : bytes -> option (list str).
Variable exc_str : py_exception -> str.

Let parse := parse_resume U requests_get http_error_message pdf_pages
               docx_paragraphs exc_str.
Let view := view_resume U requests_get pdf_pages docx_paragraphs exc_str.
Let pdf_text := extract_text_from_pdf pdf_pages.
Let docx_text := extract_text_from_docx docx_paragraphs.

Lemma parse_text_no_request_exception (text : str) :
  match parse_text U text with
  | Raised (RequestException _) => False
  | _ => True
  end.
Proof.
  unfold parse_text.
  destruct (negb (nonempty text) || Nat.ltb (length text) 10); [exact I|].
  destruct (parse_resume_extract U text); exact I.
Qed.

(** What the [try] block of [parse_resume] raises after a good download
    is never a RequestException. *)
Lemma parse_resume_try_cases (url : str) :
  match requests_get url with
  | Raised e => parse_resume_try U requests_get http_error_message pdf_pages
                  docx_paragraphs url = Raised e
  | Returned r =>
      if Nat.leb 400 (status r) && Nat.ltb (status r) 600
      then parse_resume_try U requests_get http_error_message pdf_pages
             docx_paragraphs url
           = Raised (RequestException (http_error_message r))
      else match parse_resume_try U requests_get http_error_message pdf_pages
                   docx_paragraphs url with
           | Raised (RequestException _) => False
           | _ => True
           end
  end.
Proof.
  unfold parse_resume_try, raise_for_status.
  destruct (requests_get url) as [r|e]; [|reflexivity].
  destruct (Nat.leb 400 (status r) && Nat.ltb (status r) 600); [reflexivity|].
  destruct (is_pdf (content r)); [apply parse_text_no_request_exception|].
  destruct (is_docx (content r)); [apply parse_text_no_request_exception|].
  destruct (contains (py "pdf") _); [apply parse_text_no_request_exception|].
  destruct (contains (py "word") _ || contains (py "docx") _);
    [apply parse_text_no_request_exception | exact I].
Qed.

(** X14: whatever happens, [parse_resume] answers with a result or with
    the status 400 or 500, never another one.  The status is 400 exactly
    when the download raised a RequestException: the request failed with
    one, or the response had a status from 400 to 599. *)
Theorem parse_resume_statuses (url : str) :
  (forall e, parse url = Raised e ->
     exists d, e = HTTPException 400 d \/ e = HTTPException 500 d) /\
  ((exists d, parse url = Raised (HTTPException 400 d)) <->
   (exists msg, requests_get url = Raised (RequestException msg)) \/
   (exists r, requests_get url = Returned r /\ 400 <= status r < 600)).
Proof.
  pose proof (parse_resume_try_cases url) as Hc.
  unfold parse, parse_resume.
  destruct (requests_get url) as [r|e0] eqn:Hget.
  - destruct (Nat.leb 400 (status r) && Nat.ltb (status r) 600) eqn:Hst.
    + rewrite Hc. split.
      * intros e H. injection H as <-. eauto.
      * split; [|eauto]. intros _. right. exists r.
        apply andb_true_iff in Hst. destruct Hst as [H1 H2].
        apply Nat.leb_le in H1. apply Nat.ltb_lt in H2. auto.
    + assert (Hnf : ~ ((exists msg, @Returned response r
                                    = Raised (RequestException msg)) \/
                       (exists r', Returned r = Returned r' /\
                                   400 <= status r' < 600))).
      { intros [[msg H] | (r' & H & H1 & H2)]; [discriminate H|].
        injection H as <-.
        apply andb_false_iff in Hst. destruct Hst as [Hst|Hst];
          [apply Nat.leb_gt in Hst | apply Nat.ltb_ge in Hst]; lia. }
      destruct (parse_resume_try U requests_get http_error_message pdf_pages
                  docx_paragraphs url) as [x|[msg|code detail|e1]].
      * split; [intros e H; discriminate H|].
        split; [intros [d H]; discriminate H | intro H; contradiction].
      * contradiction.
      * split; [intros e H; injection H as <-; eauto|].
        split; [intros [d H]; discriminate H | intro H; contradiction].
      * split; [intros e H; injection H as <-; eauto|].
        split; [intros [d H]; discriminate H | intro H; contradiction].
  - rewrite Hc. destruct e0 as [msg|code detail|e1].
    + split; [intros e H; injection H as <-; eauto|].
      split; [intros _; left; eauto | intros _; eauto].
    + split; [intros e H; injection H as <-; eauto|].
      split; [intros [d H]; discriminate H|].
      intros [[msg H] | (r' & H & _)]; discriminate H.
    + split; [intros e H; injection H as <-; eauto|].
      split; [intros [d H]; discriminate H|].
      intros [[msg H] | (r' & H & _)]; discriminate H.
Qed.

(** X15: a document whose extracted text is shorter than 10 characters is
    answered with status 500, not 422: the HTTPException raised with 422
    inside the [try] block is caught by [except Exception] and raised
    again with 500. *)
Theorem parse_resume_short_text (url : str) (r : response) :
  requests_get url = Returned r ->
  status r < 400 ->
  is_pdf (content r) = true ->
  length (pdf_text (content r)) < 10 ->
  parse url
  = Raised (HTTPException 500
              (py "Error parsing resume: "
               ++ exc_str (HTTPException 422
                             (py "Could not extract text from document")))).
Proof.
  intros Hget Hst Hpdf Hlen.
  unfold parse, parse_resume, parse_resume_try, raise_for_status.
  rewrite Hget.
  replace (Nat.leb 400 (status r)) with false
    by (symmetry; apply Nat.leb_gt; exact Hst).
  cbn [andb]. rewrite Hpdf. unfold parse_text. fold pdf_text.
  replace (Nat.ltb (length (pdf_text (content r))) 10) with true
    by (symmetry; apply Nat.ltb_lt; exact Hlen).
  rewrite orb_true_r. reflexivity.
Qed.

(** X16: a file that is a PDF or DOCX neither by its first bytes nor by its
    Content-Type is answered with the fixed sample record, whatever the
    file holds. *)
Theorem parse_resume_unknown_format (url : str) (r : response) :
  requests_get url = Returned r ->
  status r < 400 ->
  is_pdf (content r) = false ->
  is_docx (content r) = false ->
  (forall w, In w [py "pdf"; py "word"; py "docx"] ->
     contains w (lower U (match content_type r with
                          | Some t => t
                          | None => []
                          end)) = false) ->
  parse url = Returned dummy_data.
Proof.
  intros Hget Hst Hpdf Hdocx Hct.
  unfold parse, parse_resume, parse_resume_try, raise_for_status.
  rewrite Hget.
  replace (Nat.leb 400 (status r)) with false
    by (symmetry; apply Nat.leb_gt; exact Hst).
  cbn [andb]. rewrite Hpdf, Hdocx.
  rewrite (Hct (py "pdf")), (Hct (py "word")), (Hct (py "docx"));
    simpl; auto.
Qed.

(** X17: a document with ten characters of text or more is parsed unless the
    text of its Experience section holds a date range; if it does, the
    answer is status 500 with the text of the AttributeError. *)
Theorem parse_resume_date_range (url : str) (r : response) :
  requests_get url = Returned r ->
  status r < 400 ->
  is_pdf (content r) = true ->
  10 <= length (pdf_text (content r)) ->
  (re_search U true date_pattern
     (section_of U Experience (pdf_text (content r))) <> None ->
   parse url
   = Raised (HTTPException 500
               (py "Error parsing resume: "
                ++ exc_str (OtherException AttributeError)))) /\
  (re_search U true date_pattern
     (section_of U Experience (pdf_text (content r))) = None ->
   exists p, parse url = Returned (ParsedData p) /\
             parse_resume_extract U (pdf_text (content r)) = Ok p).
Proof.
  intros Hget Hst Hpdf Hlen.
  assert (Hparse : parse url = match parse_text U (pdf_text (content r)) with
                               | Returned x => Returned x
                               | Raised (RequestException msg) =>
                                   Raised (HTTPException 400
                                     (py "Error downloading file: "
                                      ++ exc_str (RequestException msg)))
                               | Raised e =>
                                   Raised (HTTPException 500
                                     (py "Error parsing resume: " ++ exc_str e))
                               end).
  { unfold parse, parse_resume, parse_resume_try, raise_for_status.
    rewrite Hget.
    replace (Nat.leb 400 (status r)) with false
      by (symmetry; apply Nat.leb_gt; exact Hst).
    cbn [andb]. rewrite Hpdf. reflexivity. }
  rewrite Hparse. unfold parse_text.
  assert (Hne : nonempty (pdf_text (content r)) = true).
  { destruct (pdf_text (content r)); [simpl in Hlen; lia | reflexivity]. }
  rewrite Hne.
  replace (Nat.ltb (length (pdf_text (content r))) 10) with false
    by (symmetry; apply Nat.ltb_ge; exact Hlen).
  cbn [negb orb].
  pose proof (parse_resume_extract_outcome U (pdf_text (content r))) as Hout.
  destruct (parse_resume_extract U (pdf_text (content r))) as [p|[]].
  - split; [intro H; destruct Hout as [Hout _]; contradiction|].
    intros _. exists p. split; reflexivity.
  - split; [reflexivity | intro H; contradiction].
Qed.

(** X18: [view_resume] never answers with a status other than 500: the 400, the
    415 and the 422 it raises inside the [try] block are all caught by
    [except Exception].  It returns a text exactly when the response has
    status 200, the file starts with the PDF or the DOCX magic bytes and
    the extracted text is not blank. *)
Theorem view_resume_outcome (url : str) :
  (forall e, view url = Raised e -> exists d, e = HTTPException 500 d) /\
  (forall text, view url = Returned text <->
     exists r, requests_get url = Returned r /\ status r = 200 /\
       ((is_pdf (content r) = true /\ text = pdf_text (content r)) \/
        (is_pdf (content r) = false /\ is_docx (content r) = true /\
         text = docx_text (content r))) /\
       nonempty (strip U text) = true).
Proof.
  unfold view, view_resume, view_resume_try. fold pdf_text docx_text.
  split.
  - intros e. destruct (requests_get url) as [r|e0].
    + destruct (negb (Nat.eqb (status r) 200)); [intro H; injection H as <-; eauto|].
      destruct (is_pdf (content r)).
      * destruct (negb (nonempty (strip U (pdf_text (content r)))));
          [intro H; injection H as <-; eauto | discriminate].
      * destruct (is_docx (content r)); [|intro H; injection H as <-; eauto].
        destruct (negb (nonempty (strip U (docx_text (content r)))));
          [intro H; injection H as <-; eauto | discriminate].
    + intro H; injection H as <-; eauto.
  - intro text. destruct (requests_get url) as [r|e0].
    + destruct (Nat.eqb (status r) 200) eqn:Hst; cbn [negb].
      * apply Nat.eqb_eq in Hst.
        destruct (is_pdf (content r)) eqn:Hpdf.
        -- destruct (nonempty (strip U (pdf_text (content r)))) eqn:Hne;
             cbn [negb]; split.
           ++ intro H; injection H as <-. exists r.
              split; [reflexivity|]. split; [exact Hst|].
              split; [left; auto | exact Hne].
           ++ intros (r' & Hr & _ & [[_ ->] | [Hf _]] & _);
                injection Hr as <-; [reflexivity | congruence].
           ++ discriminate.
           ++ intros (r' & Hr & _ & [[_ ->] | [Hf _]] & Hn);
                injection Hr as <-; congruence.
        -- destruct (is_docx (content r)) eqn:Hdocx.
           ++ destruct (nonempty (strip U (docx_text (content r)))) eqn:Hne;
                cbn [negb]; split.
              ** intro H; injection H as <-. exists r.
                 split; [reflexivity|]. split; [exact Hst|].
                 split; [right; auto | exact Hne].
              ** intros (r' & Hr & _ & [[Hf _] | (_ & _ & ->)] & _);
                   injection Hr as <-; [congruence | reflexivity].
              ** discriminate.
              ** intros (r' & Hr & _ & [[Hf _] | (_ & _ & ->)] & Hn);
                   injection Hr as <-; congruence.
           ++ split; [discriminate|].
              intros (r' & Hr & _ & [[Hf _] | (_ & Hf & _)] & _);
                injection Hr as <-; congruence.
      * split; [discriminate|].
        intros (r' & Hr & Hs & _). injection Hr as <-.
        rewrite Hs in Hst. discriminate.
    + split; [discriminate|]. intros (r' & Hr & _). discriminate.
Qed.

End Endpoints.

Lemma parse_resume_short_text_witness :
  parse_resume ascii_tables (sample_get pdf_response) (fun _ => [])
    (fun _ => Some [Some (py "hi")]) (fun _ => None) sample_str []
  = Raised (HTTPException 500
              (py "Error parsing resume: 422: Could not extract text from document")).
Proof.
  refine (@parse_resume_short_text ascii_tables (sample_get pdf_response)
            (fun _ => []) (fun _ => Some [Some (py "hi")]) (fun _ => None)
            sample_str [] pdf_response _ _ _ _).
  - reflexivity.
  - simpl. lia.
  - reflexivity.
  - vm_compute. lia.
Defined.

Lemma parse_resume_unknown_format_witness :
  parse_resume ascii_tables (sample_get html_response) (fun _ => [])
    (fun _ => None) (fun _ => None) sample_str []
  = Returned dummy_data.
Proof.
  refine (@parse_resume_unknown_format ascii_tables (sample_get html_response)
            (fun _ => []) (fun _ => None) (fun _ => None)
            sample_str [] html_response _ _ _ _ _).
  - reflexivity.
  - simpl. lia.
  - reflexivity.
  - reflexivity.
  - intros w [<-|[<-|[<-|[]]]]; vm_compute; reflexivity.
Defined.

Lemma parse_resume_date_range_witness :
  parse_resume ascii_tables (sample_get pdf_response) (fun _ => [])
    (fun _ => Some [Some jane]) (fun _ => None) sample_str []
  = Raised (HTTPException 500
              (py "Error parsing resume: 'NoneType' object has no attribute 'strip'")).
Proof.
  refine (proj1 (@parse_resume_date_range ascii_tables
                   (sample_get pdf_response) (fun _ => [])
                   (fun _ => Some [Some jane]) (fun _ => None)
                   sample_str [] pdf_response _ _ _ _) _).
  - reflexivity.
  - simpl. lia.
  - reflexivity.
  - vm_compute. lia.
  - vm_compute. discriminate.
Defined.

(** ** The matcher is complete *)

Section MatcherComplete.

Variable U : unicode.
Variable icase : bool.

Lemma mt_rep (r' : regex) (lo : nat) (hi : option nat) (g : bool)
  prev s cs k :
  mt U icase (Rep r' lo hi g) prev s cs k
  = rep_loop U icase r' lo hi g k (length s) 0 prev s cs.
Proof. reflexivity. Qed.

Lemma rep_loop_unfold (r' : regex) (lo : nat) (hi : option nat) (g : bool)
  k fuel n prev s cs :
  rep_loop U icase r' lo hi g k fuel n prev s cs
  = (let more (_ : unit) : answer :=
       match fuel with
       | 0 => None
       | S fuel' =>
           if below n hi then
             mt U icase r' prev s cs (fun p' s' c' =>
               if Nat.ltb (length s') (length s)
               then rep_loop U icase r' lo hi g k fuel' (S n) p' s' c'
               else None)
           else None
       end in
     let stop (_ : unit) : answer :=
       if Nat.leb lo n then k prev s cs else None in
     if g then orelse (more tt) stop else orelse (stop tt) more).
Proof. destruct fuel; reflexivity. Qed.

Lemma orelse_left {A} (a : option A) (b : unit -> option A) :
  a <> None -> orelse a b <> None.
Proof. destruct a; simpl; congruence. Qed.

Lemma orelse_right {A} (a : option A) (b : unit -> option A) :
  b tt <> None -> orelse a b <> None.
Proof. destruct a; simpl; congruence. Qed.

(** Wherever the pattern matches and what follows can go on, the matcher
    finds an answer. *)
Lemma mt_complete_gen (r : regex) prev w rest :
  den U icase r prev w rest ->
  (forall cs k,
     (forall c', k (last_char prev w) rest c' <> None) ->
     mt U icase r prev (w ++ rest) cs k <> None) /\
  (forall r' lo' hi' g, r = Rep r' lo' hi' g ->
   forall lo hi n fuel cs k,
     lo' = lo - n -> hi' = option_map (fun h => h - n) hi ->
     length (w ++ rest) <= fuel ->
     (forall c', k (last_char prev w) rest c' <> None) ->
     rep_loop U icase r' lo hi g k fuel n prev (w ++ rest) cs <> None).
Proof.
  induction 1 as
    [ prev rest | items c prev rest Hc | c prev rest Hc
    | a b prev w1 w2 rest Ha IHa Hb IHb
    | a b prev w rest Ha IHa | a b prev w rest Hb IHb
    | r hi g prev rest
    | r lo hi g prev w1 w2 rest Hne Hbelow Hr IHr Hrest IHrest
    | i r prev w rest Hr IHr | r prev w rest Hr IHr
    | prev rest Hb | rest | prev | prev ].
  - split; [|intros ? ? ? ? E; discriminate E].
    intros cs k Hk. apply Hk.
  - split; [|intros ? ? ? ? E; discriminate E].
    intros cs k Hk. simpl app. rewrite mt_chr, Hc. apply Hk.
  - split; [|intros ? ? ? ? E; discriminate E].
    intros cs k Hk. simpl.
    destruct (N.eqb c nl) eqn:E; [apply N.eqb_eq in E; contradiction|].
    apply Hk.
  - split; [|intros ? ? ? ? E; discriminate E].
    intros cs k Hk. rewrite mt_seq, <- app_assoc.
    apply (proj1 IHa). intro c'.
    apply (proj1 IHb). intro c''. rewrite <- last_char_app. apply Hk.
  - split; [|intros ? ? ? ? E; discriminate E].
    intros cs k Hk. simpl. apply orelse_left. apply (proj1 IHa). exact Hk.
  - split; [|intros ? ? ? ? E; discriminate E].
    intros cs k Hk. simpl. apply orelse_right. apply (proj1 IHb). exact Hk.
  - (* no further iteration *)
    assert (Hloop : forall lo0 hi0 n fuel cs k,
      0 = lo0 - n ->
      (forall c', k prev rest c' <> None) ->
      rep_loop U icase r lo0 hi0 g k fuel n prev rest cs <> None).
    { intros lo0 hi0 n fuel cs k Hlo Hk.
      rewrite rep_loop_unfold. cbv zeta.
      replace (Nat.leb lo0 n) with true by (symmetry; apply Nat.leb_le; lia).
      destruct g; [apply orelse_right | apply orelse_left]; apply Hk. }
    split.
    + intros cs k Hk. rewrite mt_rep. apply Hloop; auto.
    + intros r' lo' hi' g' E lo0 hi0 n fuel cs k Hlo Hhi Hfuel Hk.
      injection E as <- <- _ <-. apply Hloop; auto.
  - (* one more iteration *)
    assert (Hloop : forall lo0 hi0 n fuel cs k,
      lo = lo0 - n -> hi = option_map (fun h => h - n) hi0 ->
      length ((w1 ++ w2) ++ rest) <= fuel ->
      (forall c', k (last_char prev (w1 ++ w2)) rest c' <> None) ->
      rep_loop U icase r lo0 hi0 g k fuel n prev ((w1 ++ w2) ++ rest) cs
      <> None).
    { intros lo0 hi0 n fuel cs k Hlo Hhi Hfuel Hk.
      assert (Hw1 : 0 < length w1) by (destruct w1; [congruence | simpl; lia]).
      rewrite <- app_assoc in *. rewrite !length_app in Hfuel.
      destruct fuel as [|f]; [lia|].
      assert (Hn : below n hi0 = true).
      { subst hi. destruct hi0 as [h|]; simpl in *; [|reflexivity].
        apply Nat.ltb_lt in Hbelow. apply Nat.ltb_lt. lia. }
      assert (Hmore :
        mt U icase r prev (w1 ++ w2 ++ rest) cs (fun p' s' c' =>
          if Nat.ltb (length s') (length (w1 ++ w2 ++ rest))
          then rep_loop U icase r lo0 hi0 g k f (S n) p' s' c'
          else None) <> None).
      { apply (proj1 IHr). intro c'.
        replace (Nat.ltb (length (w2 ++ rest)) (length (w1 ++ w2 ++ rest)))
          with true
          by (symmetry; apply Nat.ltb_lt; rewrite !length_app; lia).
        apply (proj2 IHrest r (pred lo) (option_map pred hi) g eq_refl).
        - lia.
        - subst hi. destruct hi0; simpl; [f_equal; lia | reflexivity].
        - rewrite length_app. lia.
        - intro c''. rewrite <- last_char_app. apply Hk. }
      rewrite rep_loop_unfold. cbv zeta. rewrite Hn.
      destruct g; [apply orelse_left | apply orelse_right]; exact Hmore. }
    split.
    + intros cs k Hk. rewrite mt_rep.
      apply Hloop; auto; [lia | symmetry; apply sub_bound_0].
    + intros r' lo' hi' g' E lo0 hi0 n fuel cs k Hlo Hhi Hfuel Hk.
      injection E as <- <- <- <-. apply Hloop; auto.
  - split; [|intros ? ? ? ? E; discriminate E].
    intros cs k Hk. simpl. apply (proj1 IHr). intro c'. apply Hk.
  - split; [|intros ? ? ? ? E; discriminate E].
    intros cs k Hk. rewrite mt_look. simpl app.
    destruct (mt U icase r prev (w ++ rest) cs (fun p' s' c' => Some (p', s', c')))
      as [[[p0 s0] c0]|] eqn:Hl.
    + apply Hk.
    + exfalso. revert Hl. apply (proj1 IHr). discriminate.
  - split; [|intros ? ? ? ? E; discriminate E].
    intros cs k Hk. simpl app. rewrite mt_wordb, Hb. apply Hk.
  - split; [|intros ? ? ? ? E; discriminate E].
    intros cs k Hk. apply Hk.
  - split; [|intros ? ? ? ? E; discriminate E].
    intros cs k Hk. apply Hk.
  - split; [|intros ? ? ? ? E; discriminate E].
    intros cs k Hk. simpl. apply Hk.
Qed.

End MatcherComplete.

(** ** A search finds what is there *)

Section SearchComplete.

Variable U : unicode.

Lemma match_here_complete (icase : bool) (r : regex) prev w rest :
  den U icase r prev w rest ->
  match_here U icase r false prev (w ++ rest) <> None.
Proof.
  intro H. unfold match_here.
  apply (proj1 (mt_complete_gen H)). intro c'. simpl. discriminate.
Qed.

Lemma search_from_here (icase : bool) (r : regex) adv skipped prev s :
  match_here U icase r adv prev s <> None ->
  search_from U icase r adv skipped prev s <> None.
Proof.
  intro H. destruct s as [|x s]; simpl search_from;
    destruct (match_here U icase r adv prev _) as [[[p' s'] c']|];
    try discriminate; contradiction.
Qed.

Lemma search_from_complete (icase : bool) (r : regex) (a w rest : str) :
  forall adv skipped prev,
    adv = false ->
    den U icase r (last_char prev a) w rest ->
    search_from U icase r adv skipped prev (a ++ w ++ rest) <> None.
Proof.
  induction a as [|x a IH]; intros adv skipped prev -> Hd.
  - simpl app. apply search_from_here. apply match_here_complete.
    exact Hd.
  - simpl app.
    destruct (match_here U icase r false prev (x :: a ++ w ++ rest))
      as [res|] eqn:Hm.
    + apply search_from_here. rewrite Hm. discriminate.
    + simpl search_from. rewrite Hm.
      apply IH; [reflexivity|]. rewrite last_char_cons in Hd. exact Hd.
Qed.

(** [re.search] finds a match exactly when some piece of the subject is
    matched by the pattern in the place where it stands. *)
Lemma re_search_iff (icase : bool) (r : regex) (s : str) :
  re_search U icase r s <> None <->
  exists a w rest, s = a ++ w ++ rest /\
                   den U icase r (last_char None a) w rest.
Proof.
  split.
  - destruct (re_search U icase r s) as [m|] eqn:Hs; [|congruence].
    intros _. apply re_search_sound in Hs. destruct Hs as (Hs & Hd & _).
    eauto.
  - intros (a & w & rest & -> & Hd).
    apply search_from_complete; [reflexivity | exact Hd].
Qed.

Lemma den_lit_str_intro (x : str) :
  forall prev rest, den U false (lit_str x) prev x rest.
Proof.
  induction x as [|c x IH]; intros prev rest.
  - constructor.
  - change (lit_str (c :: x)) with (Seq (chr c) (lit_str x)).
    change (c :: x) with ([c] ++ x).
    constructor.
    + constructor. rewrite class_match_chr. apply N.eqb_refl.
    + apply IH.
Qed.

Lemma den_rep_chr_intro (icase : bool) (items : list citem) (g : bool)
  (w : str) :
  Forall (fun c => class_match U icase items c = true) w ->
  forall lo hi prev rest,
    lo <= length w ->
    (forall h, hi = Some h -> length w <= h) ->
    den U icase (Rep (Chr items) lo hi g) prev w rest.
Proof.
  induction 1 as [|c w Hc _ IH]; intros lo hi prev rest Hlo Hhi.
  - simpl in Hlo. replace lo with 0 by lia. constructor.
  - change (c :: w) with ([c] ++ w).
    apply den_rep_more.
    + discriminate.
    + destruct hi as [h|]; [|reflexivity].
      specialize (Hhi h eq_refl). simpl in *. apply Nat.ltb_lt. lia.
    + constructor. exact Hc.
    + apply IH.
      * simpl in Hlo. lia.
      * intros h Hh. destruct hi as [h0|]; [|discriminate].
        simpl in Hh. injection Hh as <-.
        specialize (Hhi h0 eq_refl). simpl in Hhi. lia.
Qed.

(** X4: [extract_email] returns an email exactly when the text holds a piece
    of the form local@domain.tld (a non-empty local part of letters,
    digits and ._%+-, a non-empty domain of letters, digits, dots and
    hyphens, a last label of two ASCII letters or more). *)
Theorem extract_email_finds (text : str) :
  extract_email U text <> None <->
  exists before after local domain tld,
    text = before ++ (local ++ ch "@" :: domain ++ ch "." :: tld) ++ after /\
    local <> [] /\ domain <> [] /\ 2 <= length tld /\
    Forall (fun c => email_local_char c = true) local /\
    Forall (fun c => email_domain_char c = true) domain /\
    Forall (fun c => ascii_letter c = true) tld.
Proof.
  split.
  - unfold extract_email.
    destruct (re_search U false email_pattern text) as [m|] eqn:Hs;
      [|simpl; congruence].
    intros _. apply re_search_sound in Hs. destruct Hs as (Ht & Hd & _).
    apply email_den_shape in Hd.
    destruct Hd as (local & domain & tld & He & H).
    exists (m_skipped m), (m_rest m), local, domain, tld.
    rewrite <- He. split; [exact Ht | exact H].
  - intros (before & after & local & domain & tld & -> & Hl & Hd & Ht
            & Hlc & Hdc & Htc).
    unfold extract_email.
    assert (Hs : re_search U false email_pattern
                   (before ++ (local ++ ch "@" :: domain ++ ch "." :: tld)
                    ++ after) <> None).
    { apply re_search_iff.
      exists before, (local ++ ch "@" :: domain ++ ch "." :: tld), after.
      split; [reflexivity|].
      unfold email_pattern. cbn [seqs].
      constructor.
      - apply den_rep_chr_intro.
        + eapply Forall_impl; [|exact Hlc]. intros c Hc.
          rewrite email_local_class. exact Hc.
        + destruct local; [congruence | simpl; lia].
        + discriminate.
      - change (ch "@" :: domain ++ ch "." :: tld)
          with (py "@" ++ domain ++ ch "." :: tld).
        constructor; [apply den_lit_str_intro|].
        constructor.
        + apply den_rep_chr_intro.
          * eapply Forall_impl; [|exact Hdc]. intros c Hc.
            rewrite email_domain_class. exact Hc.
          * destruct domain; [congruence | simpl; lia].
          * discriminate.
        + change (ch "." :: tld) with (py "." ++ tld).
          constructor; [apply den_lit_str_intro|].
          apply den_rep_chr_intro.
          * eapply Forall_impl; [|exact Htc]. intros c Hc.
            rewrite ascii_letter_class. exact Hc.
          * exact Ht.
          * discriminate. }
    destruct (re_search U false email_pattern _); [discriminate | congruence].
Qed.

End SearchComplete.

(** ** The duration of an experience record *)

Section Duration.

Variable U : unicode.

Lemma den_rep_map (icase : bool) (r1 r2 : regex) :
  (forall p x y, den U icase r1 p x y -> den U icase r2 p x y) ->
  forall r prev w rest,
    den U icase r prev w rest ->
    forall lo hi g, r = Rep r1 lo hi g ->
      den U icase (Rep r2 lo hi g) prev w rest.
Proof.
  intros Hmap. induction 1; intros lo' hi' g' E; try discriminate.
  - injection E as -> <- -> ->. constructor.
  - injection E as -> -> -> ->.
    apply den_rep_more; auto.
Qed.

(** Groups do not change what a pattern matches. *)
Lemma den_strip_groups (icase : bool) (r : regex) :
  forall prev w rest,
    den U icase (strip_groups r) prev w rest -> den U icase r prev w rest.
Proof.
  induction r as [ | items | | a IHa b IHb | a IHa b IHb
                 | r' IH lo hi g | j r' IH | r' IH | | | ];
    intros prev w rest H; simpl in H; auto.
  - inversion H; subst. constructor; auto.
  - inversion H; subst; [apply den_alt_l | apply den_alt_r]; auto.
  - eapply den_rep_map; [exact IH | exact H | reflexivity].
  - constructor. auto.
  - inversion H; subst. constructor. auto.
Qed.

Lemma word_after_app (w rest rest' : str) :
  word_after U rest = word_after U rest' ->
  word_after U (w ++ rest) = word_after U (w ++ rest').
Proof. destruct w; simpl; auto. Qed.

Lemma word_before_last (prev prev' : option char) (w : str) :
  word_before U prev = word_before U prev' ->
  word_before U (last_char prev w) = word_before U (last_char prev' w).
Proof. unfold last_char. destruct (rev w); simpl; auto. Qed.

(** A pattern without lookahead, ^ and $ sees of its surroundings only
    whether the characters next to it are word characters. *)
Lemma den_context (icase : bool) (r : regex) prev w rest :
  den U icase r prev w rest ->
  local_pattern r = true ->
  forall prev' rest',
    word_before U prev = word_before U prev' ->
    word_after U rest = word_after U rest' ->
    den U icase r prev' w rest'.
Proof.
  induction 1; intros Hloc prev' rest' Hp Hr; simpl in Hloc;
    try discriminate; try (constructor; assumption).
  - apply andb_true_iff in Hloc. destruct Hloc as [Ha Hb].
    constructor.
    + apply IHden1; auto. apply word_after_app. exact Hr.
    + apply IHden2; auto. apply word_before_last. exact Hp.
  - apply andb_true_iff in Hloc. apply den_alt_l. apply IHden; tauto.
  - apply andb_true_iff in Hloc. apply den_alt_r. apply IHden; tauto.
  - apply den_rep_more; auto.
    + apply IHden1; auto. apply word_after_app. exact Hr.
    + apply IHden2; auto. apply word_before_last. exact Hp.
  - constructor. apply IHden; auto.
  - constructor. unfold boundary in *. rewrite <- Hp, <- Hr. assumption.
Qed.

(** A piece of a text joined by newlines stands between newlines. *)
Lemma join_piece (pieces : list str) (e : str) :
  In e pieces ->
  exists X Y,
    join nl pieces = X ++ e ++ Y /\
    (X = [] \/ exists X', X = X' ++ [nl]) /\
    (Y = [] \/ exists Y', Y = nl :: Y').
Proof.
  induction pieces as [|p ps IH]; intros Hin; [destruct Hin|].
  destruct ps as [|q ps].
  - destruct Hin as [->|[]]. exists [], []. simpl.
    rewrite app_nil_r. auto.
  - destruct Hin as [->|Hin].
    + exists [], (nl :: join nl (q :: ps)).
      split; [reflexivity|]. split; [left; reflexivity | right; eauto].
    + destruct (IH Hin) as (X & Y & Hj & HX & HY).
      exists (p ++ nl :: X), Y.
      split.
      * change (join nl (p :: q :: ps)) with (p ++ nl :: join nl (q :: ps)).
        rewrite Hj, <- app_assoc. reflexivity.
      * split; [|exact HY]. right.
        destruct HX as [-> | [X' ->]].
        -- exists p. reflexivity.
        -- exists (p ++ nl :: X'). rewrite <- app_assoc. reflexivity.
Qed.

Lemma for_each_invariant_in {A B} (P : B -> Prop) (body : A -> B -> result B)
  (xs : list A) :
  (forall x acc acc', In x xs -> P acc -> body x acc = Ok acc' -> P acc') ->
  forall acc r, P acc -> for_each xs acc body = Ok r -> P r.
Proof.
  induction xs as [|x xs IH]; intros Hbody acc r Hacc Hrun; simpl in Hrun.
  - injection Hrun as <-. exact Hacc.
  - destruct (body x acc) as [acc'|e] eqn:Hx; simpl in Hrun; [|discriminate].
    eapply IH; [|eapply Hbody; [left; reflexivity | exact Hacc | exact Hx]
               | exact Hrun].
    intros y a a' Hy. apply Hbody. right. exact Hy.
Qed.

(** A date range inside an entry is a date range of the section text the
    entry was cut from. *)
Lemma entry_date_range (pieces : list str) (e : str) :
  isword U nl = false ->
  In e pieces ->
  re_search U true duration_pattern e <> None ->
  re_search U true date_pattern (join nl pieces) <> None.
Proof.
  intros Hnl Hin Hs.
  apply re_search_iff in Hs. destruct Hs as (a & w & rest & -> & Hd).
  destruct (join_piece pieces _ Hin) as (X & Y & Hj & HX & HY).
  apply re_search_iff.
  exists (X ++ a), w, (rest ++ Y).
  split; [rewrite Hj, <- !app_assoc; reflexivity|].
  change duration_pattern with (strip_groups date_pattern) in Hd.
  apply den_strip_groups in Hd.
  eapply den_context; [exact Hd | reflexivity | |].
  - rewrite last_char_app.
    destruct HX as [-> | [X' ->]]; [reflexivity|].
    rewrite (last_char_app None X' [nl]). simpl last_char at 2.
    unfold last_char. destruct (rev a); simpl; [|reflexivity].
    symmetry. exact Hnl.
  - destruct rest as [|c rest]; [|reflexivity]. simpl.
    destruct HY as [-> | [Y' ->]]; [reflexivity|]. simpl.
    symmetry. exact Hnl.
Qed.

(** X2: whenever [extract_experience] returns, every record it returns has
    the duration "Duration not specified": a section with a date range
    makes the function raise, and a section without one has no entry with
    one. *)
Theorem experience_duration_is_sentinel
  (text : str) (l : list ExperienceRecord) :
  isword U nl = false ->
  extract_experience U text = Ok l ->
  Forall (fun r => duration r = py "Duration not specified") l.
Proof.
  intros Hnl Hl.
  assert (Hnone : re_search U true date_pattern
                    (section_of U Experience text) = None).
  { destruct (re_search U true date_pattern (section_of U Experience text))
      as [m|] eqn:Hm; [|reflexivity].
    rewrite (date_range_raises U text Hm) in Hl. discriminate. }
  revert Hl. unfold extract_experience.
  destruct (nonempty _); [|intro H; injection H as <-; constructor].
  unfold experience_entries. rewrite (re_split_no_match U _ _ _ Hnone).
  cbn [length Nat.leb].
  destruct (@lookahead_splits_lossless U year_line_split_pattern
              (section_of U Experience text)) as (pieces & -> & Hj);
    [right; left; reflexivity|].
  apply for_each_invariant_in; [|constructor].
  intros entry acc acc' Hin Hacc. unfold experience_entry.
  destruct entry as [e|]; [|discriminate].
  destruct (Nat.ltb _ 15 || _); [intro H; injection H as <-; exact Hacc|].
  destruct (find_company U e) as [company|]; simpl; [|discriminate].
  destruct (truthy _ || truthy _); intro H; injection H as <-;
    [|exact Hacc].
  apply Forall_app. split; [exact Hacc|].
  constructor; [|constructor]. simpl.
  destruct (re_search U true duration_pattern e) as [m|] eqn:Hm;
    [|reflexivity].
  exfalso.
  apply in_map_iff in Hin. destruct Hin as (e' & He' & Hin).
  injection He' as ->.
  assert (Hsec : re_search U true date_pattern (join nl pieces) <> None).
  { apply (entry_date_range pieces e Hnl Hin). rewrite Hm. discriminate. }
  rewrite Hj in Hsec. contradiction.
Qed.

End Duration.

Lemma experience_duration_is_sentinel_witness :
  Forall (fun r => duration r = py "Duration not specified")
    [{| title := doc ["Experience"; "Software Engineer"]%string;
        company := py "Acme Corp";
        duration := py "Duration not specified" |}].
Proof.
  apply (@experience_duration_is_sentinel ascii_tables
           (doc ["Experience"; "Software Engineer at Acme Corp";
                 "since 2020"]%string)).
  - reflexivity.
  - vm_compute. reflexivity.
Defined.

(** ** Entries and extracted text *)

(** X12: the education split, the projects split and the year-line split
    of the experience section take only the newline before an anchor:
    the entries are strings and, joined by newlines, they give back the
    text that was split. *)
Theorem entry_splits_lossless (U : unicode) (s : str) :
  (exists pieces,
     re_split U false education_split_pattern s = map Some pieces /\
     join nl pieces = s) /\
  (exists pieces,
     re_split U false projects_split_pattern s = map Some pieces /\
     join nl pieces = s) /\
  (exists pieces,
     re_split U false year_line_split_pattern s = map Some pieces /\
     join nl pieces = s).
Proof.
  repeat split; apply lookahead_splits_lossless; simpl; auto.
Qed.

Section TextExtractors.

Variable pdf_pages : bytes -> option (list (option str)).
Variable docx_paragraphs : bytes -> option (list str).

Lemma page_fold_prefix (pages : list (option str)) :
  forall acc,
    exists tail,
      fold_left (fun text extracted =>
                   if truthy extracted
                   then text ++ match extracted with
                                | Some e => e
                                | None => []
                                end ++ [nl]
                   else text) pages acc
      = acc ++ tail /\
      (tail = [] <-> Forall (fun p => truthy p = false) pages).
Proof.
  induction pages as [|p pages IH]; intro acc; simpl.
  - exists []. rewrite app_nil_r. split; [reflexivity|].
    split; [constructor | reflexivity].
  - destruct (truthy p) eqn:Hp.
    + destruct (IH (acc ++ match p with Some e => e | None => [] end ++ [nl]))
        as (tail & -> & _).
      exists (match p with Some e => e | None => [] end ++ [nl] ++ tail).
      split; [rewrite <- !app_assoc; reflexivity|].
      split.
      * intro E. apply app_eq_nil in E. destruct E as [_ E]. discriminate.
      * intro H. inversion H; subst. congruence.
    + destruct (IH acc) as (tail & -> & Ht).
      exists tail. split; [reflexivity|].
      rewrite Ht. split.
      * intro H. constructor; assumption.
      * intro H. inversion H; subst. assumption.
Qed.

Lemma join_nonempty_pieces (ps : list str) :
  Forall (fun p => p <> []) ps -> join nl ps = [] -> ps = [].
Proof.
  destruct 1 as [|p ps Hp _]; [reflexivity|].
  destruct ps; simpl; intro E.
  - contradiction.
  - apply app_eq_nil in E. destruct E as [E _]. contradiction.
Qed.

(** X19: [extract_text_from_pdf] returns the empty string exactly when the
    PDF library fails or no page has text, and [extract_text_from_docx]
    exactly when the DOCX library fails or every paragraph is empty. *)
Theorem extracted_text_empty (file_bytes : bytes) :
  (extract_text_from_pdf pdf_pages file_bytes = [] <->
   match pdf_pages file_bytes with
   | None => True
   | Some pages => Forall (fun p => truthy p = false) pages
   end) /\
  (extract_text_from_docx docx_paragraphs file_bytes = [] <->
   match docx_paragraphs file_bytes with
   | None => True
   | Some paragraphs => Forall (fun p => p = []) paragraphs
   end).
Proof.
  split.
  - unfold extract_text_from_pdf.
    destruct (pdf_pages file_bytes) as [pages|]; [|tauto].
    destruct (page_fold_prefix pages []) as (tail & -> & Ht).
    exact Ht.
  - unfold extract_text_from_docx.
    destruct (docx_paragraphs file_bytes) as [ps|]; [|tauto].
    split.
    + intro E. apply join_nonempty_pieces in E.
      * induction ps as [|p ps IH]; [constructor|].
        simpl in E. destruct p; simpl in E; [|discriminate].
        constructor; [reflexivity | apply IH; exact E].
      * apply Forall_forall. intros x Hx. apply filter_In in Hx.
        destruct Hx as [_ Hx]. apply nonempty_true. exact Hx.
    + intro H. replace (filter nonempty ps) with (@nil str); [reflexivity|].
      induction H as [|p ps Hp _ IH]; [reflexivity|].
      subst p. simpl. exact IH.
Qed.

End TextExtractors.

(** ** Numbers and year ranges that are always found *)

Section Found.

Variable U : unicode.

Lemma den_seq_intro (icase : bool) (a b : regex) prev w w1 w2 rest :
  w = w1 ++ w2 ->
  den U icase a prev w1 (w2 ++ rest) ->
  den U icase b (last_char prev w1) w2 rest ->
  den U icase (Seq a b) prev w rest.
Proof. intros ->. apply den_seq. Qed.

Lemma digit_class (icase : bool) (c : char) :
  class_match U icase [CDigit] c = isdigit U c.
Proof.
  unfold class_match, item_match. simpl.
  rewrite andb_false_r, !orb_false_r. reflexivity.
Qed.

Lemma space_class (icase : bool) (c : char) :
  class_match U icase [CSpace] c = isspace U c.
Proof.
  unfold class_match, item_match. simpl.
  rewrite andb_false_r, !orb_false_r. reflexivity.
Qed.

Lemma phone_sep_class (c : char) :
  class_match U false [CChar (ch "-"); CChar (ch "."); CSpace] c
  = phone_sep_char U c.
Proof.
  unfold class_match, item_match, phone_sep_char.
  cbn [existsb andb in_item].
  rewrite !orb_false_r, !orb_assoc. reflexivity.
Qed.

Lemma den_digits (icase : bool) (n : nat) (w : str) prev rest :
  length w = n -> Forall (fun c => isdigit U c = true) w ->
  den U icase (times n digit) prev w rest.
Proof.
  intros Hn Hw. apply den_rep_chr_intro.
  - eapply Forall_impl; [|exact Hw]. intros c Hc.
    rewrite digit_class. exact Hc.
  - lia.
  - intros h Hh. injection Hh as <-. lia.
Qed.

Lemma den_spaces (icase : bool) (w : str) prev rest :
  Forall (fun c => isspace U c = true) w ->
  den U icase (star space) prev w rest.
Proof.
  intros Hw. apply den_rep_chr_intro.
  - eapply Forall_impl; [|exact Hw]. intros c Hc.
    rewrite space_class. exact Hc.
  - lia.
  - discriminate.
Qed.

Lemma den_phone_sep (w : str) prev rest :
  length w <= 1 -> Forall (fun c => phone_sep_char U c = true) w ->
  den U false phone_sep prev w rest.
Proof.
  intros Hn Hw. apply den_rep_chr_intro.
  - eapply Forall_impl; [|exact Hw]. intros c Hc.
    rewrite phone_sep_class. exact Hc.
  - lia.
  - intros h Hh. injection Hh as <-. exact Hn.
Qed.

(** X20: a number written as three, three and four digits, with at most
    one hyphen, dot or whitespace character between the groups, is never
    missed: [extract_phone] returns a number for every text that holds
    one. *)
Theorem extract_phone_finds
  (text before after area s1 exch s2 line : str) :
  text = before ++ (area ++ s1 ++ exch ++ s2 ++ line) ++ after ->
  length area = 3 -> length exch = 3 -> length line = 4 ->
  Forall (fun c => isdigit U c = true) (area ++ exch ++ line) ->
  length s1 <= 1 -> length s2 <= 1 ->
  Forall (fun c => phone_sep_char U c = true) (s1 ++ s2) ->
  extract_phone U text <> None.
Proof.
  intros -> Ha He Hl Hd Hs1 Hs2 Hs.
  apply Forall_app in Hd. destruct Hd as [Hda Hd].
  apply Forall_app in Hd. destruct Hd as [Hde Hdl].
  apply Forall_app in Hs. destruct Hs as [Hc1 Hc2].
  assert (Hsearch : re_search U false phone_pattern
            (before ++ (area ++ s1 ++ exch ++ s2 ++ line) ++ after) <> None).
  { apply re_search_iff.
    exists before, (area ++ s1 ++ exch ++ s2 ++ line), after.
    split; [reflexivity|]. unfold phone_pattern.
    apply den_seq_intro with (w1 := []) (w2 := area ++ s1 ++ exch ++ s2 ++ line);
      [reflexivity | apply den_rep_stop |].
    apply den_grp. cbn [seqs].
    apply den_seq_intro with (w1 := []) (w2 := area ++ s1 ++ exch ++ s2 ++ line);
      [reflexivity | apply den_rep_stop |].
    apply den_seq_intro with (w1 := area) (w2 := s1 ++ exch ++ s2 ++ line);
      [reflexivity | apply den_digits; assumption |].
    apply den_seq_intro with (w1 := []) (w2 := s1 ++ exch ++ s2 ++ line);
      [reflexivity | apply den_rep_stop |].
    apply den_seq_intro with (w1 := s1) (w2 := exch ++ s2 ++ line);
      [reflexivity | apply den_phone_sep; assumption |].
    apply den_seq_intro with (w1 := exch) (w2 := s2 ++ line);
      [reflexivity | apply den_digits; assumption |].
    apply den_seq_intro with (w1 := s2) (w2 := line);
      [reflexivity | apply den_phone_sep; assumption |].
    apply den_digits; assumption. }
  unfold extract_phone.
  destruct (re_search U false phone_pattern _); [discriminate | congruence].
Qed.

(** X21: a range of two years in the Experience section (four digits,
    a hyphen with or without whitespace around it, four digits, the
    first year after a word boundary) makes [extract_experience] raise
    AttributeError. *)
Theorem year_range_raises (text a y1 sp1 sp2 y2 rest : str) :
  section_of U Experience text
  = a ++ (y1 ++ sp1 ++ ch "-" :: sp2 ++ y2) ++ rest ->
  length y1 = 4 -> length y2 = 4 ->
  Forall (fun c => isdigit U c = true) (y1 ++ y2) ->
  Forall (fun c => isspace U c = true) (sp1 ++ sp2) ->
  boundary U (last_char None a) y1 = true ->
  extract_experience U text = Raise AttributeError.
Proof.
  intros Hsec H1 H2 Hd Hsp Hb.
  apply Forall_app in Hd. destruct Hd as [Hd1 Hd2].
  apply Forall_app in Hsp. destruct Hsp as [Hs1 Hs2].
  assert (Hsearch : re_search U true date_pattern
                      (section_of U Experience text) <> None).
  { apply re_search_iff.
    exists a, (y1 ++ sp1 ++ ch "-" :: sp2 ++ y2), rest.
    split; [exact Hsec|].
    unfold date_pattern, date_range. cbn [alts].
    apply den_alt_r. apply den_alt_l. cbn [seqs].
    apply den_seq_intro
      with (w1 := []) (w2 := y1 ++ sp1 ++ ch "-" :: sp2 ++ y2);
      [reflexivity | |].
    { apply den_wordb. destruct y1 as [|d y1]; [discriminate H1|].
      exact Hb. }
    apply den_seq_intro with (w1 := y1) (w2 := sp1 ++ ch "-" :: sp2 ++ y2);
      [reflexivity | apply den_digits; assumption |].
    apply den_seq_intro with (w1 := sp1) (w2 := ch "-" :: sp2 ++ y2);
      [reflexivity | apply den_spaces; assumption |].
    apply den_seq_intro with (w1 := [ch "-"]) (w2 := sp2 ++ y2);
      [reflexivity | apply den_chr; reflexivity |].
    apply den_seq_intro with (w1 := sp2) (w2 := y2);
      [reflexivity | apply den_spaces; assumption |].
    apply den_digits; assumption. }
  destruct (re_search U true date_pattern (section_of U Experience text))
    as [m|] eqn:Hm; [|congruence].
  exact (date_range_raises U text Hm).
Qed.

End Found.

Lemma extract_phone_finds_witness :
  extract_phone ascii_tables jane <> None.
Proof.
  apply (@extract_phone_finds ascii_tables jane
           (doc ["Jane Smith"; "jane.smith@mail.com"; ""]%string)
           (doc [""; ""; "Education"; "BS Computer Science";
                 "State University"; "2019"; ""; "Experience";
                 "Software Engineer at Acme Corp"; "2020 - Present";
                 ""]%string)
           (py "555") (py "-") (py "222") (py "-") (py "3344"));
    try (vm_compute; reflexivity); try (vm_compute; lia);
    vm_compute; repeat constructor.
Defined.

Lemma year_range_raises_witness :
  extract_experience ascii_tables
    (doc ["Experience"; "Acme Corp 2019 - 2021"]%string)
  = Raise AttributeError.
Proof.
  apply (@year_range_raises ascii_tables
           (doc ["Experience"; "Acme Corp 2019 - 2021"]%string)
           (doc ["Experience"; "Acme Corp "]%string)
           (py "2019") (py " ") (py " ") (py "2021") [nl]);
    try (vm_compute; reflexivity); vm_compute; repeat constructor.
Defined.

(** ** What parse_resume returns *)

Section ParseReturns.

Variable U : unicode.
Variable requests_get : str -> outcome response.
Variable http_error_message : response -> str.
Variable pdf_pages : bytes -> option (list (option str)).
Variable docx_paragraphs : bytes -> option (list str).
Variable exc_str : py_exception -> str.

Lemma parse_text_returns (text : str) (p : ParsedResume) x :
  parse_text U text = Returned x ->
  x = ParsedData p ->
  10 <= length text /\ parse_resume_extract U text = Ok p.
Proof.
  unfold parse_text.
  destruct (negb (nonempty text) || Nat.ltb (length text) 10) eqn:Hshort;
    [discriminate|].
  apply orb_false_iff in Hshort. destruct Hshort as [_ Hlen].
  apply Nat.ltb_ge in Hlen.
  destruct (parse_resume_extract U text) as [q|e]; [|discriminate].
  intros H ->. injection H as ->. auto.
Qed.

(** X22: a parsed record returned by [parse_resume] is the result of the
    extraction step on the text of the downloaded file, taken from the
    PDF or from the DOCX library, and that text has ten characters or
    more. *)
Theorem parse_resume_returns_parsed (url : str) (p : ParsedResume) :
  parse_resume U requests_get http_error_message pdf_pages docx_paragraphs
    exc_str url = Returned (ParsedData p) ->
  exists r text,
    requests_get url = Returned r /\
    (text = extract_text_from_pdf pdf_pages (content r) \/
     text = extract_text_from_docx docx_paragraphs (content r)) /\
    10 <= length text /\
    parse_resume_extract U text = Ok p.
Proof.
  unfold parse_resume, parse_resume_try, raise_for_status.
  destruct (requests_get url) as [r|e]; [|destruct e; discriminate].
  destruct (Nat.leb 400 (status r) && Nat.ltb (status r) 600);
    [discriminate|].
  assert (Hfin : forall text,
    match parse_text U text with
    | Returned x => Returned x
    | Raised (RequestException msg) =>
        Raised (HTTPException 400
                  (py "Error downloading file: "
                   ++ exc_str (RequestException msg)))
    | Raised e =>
        Raised (HTTPException 500 (py "Error parsing resume: " ++ exc_str e))
    end = Returned (ParsedData p) ->
    10 <= length text /\ parse_resume_extract U text = Ok p).
  { intros text H.
    destruct (parse_text U text) as [x|[msg|code detail|e]] eqn:Hp;
      try discriminate.
    injection H as ->. eapply parse_text_returns; [exact Hp | reflexivity]. }
  destruct (is_pdf (content r)).
  { intro H. apply Hfin in H. exists r. eexists. split; [reflexivity|].
    split; [left; reflexivity | exact H]. }
  destruct (is_docx (content r)).
  { intro H. apply Hfin in H. exists r. eexists. split; [reflexivity|].
    split; [right; reflexivity | exact H]. }
  destruct (contains (py "pdf") _).
  { intro H. apply Hfin in H. exists r. eexists. split; [reflexivity|].
    split; [left; reflexivity | exact H]. }
  destruct (contains (py "word") _ || contains (py "docx") _).
  { intro H. apply Hfin in H. exists r. eexists. split; [reflexivity|].
    split; [right; reflexivity | exact H]. }
  discriminate.
Qed.

End ParseReturns.

Lemma parse_resume_returns_parsed_witness :
  exists r text,
    sample_get pdf_response [] = Returned r /\
    (text = extract_text_from_pdf
              (fun _ => Some [Some (py "python javascript leadership")])
              (content r) \/
     text = extract_text_from_docx (fun _ => None) (content r)) /\
    10 <= length text /\
    parse_resume_extract ascii_tables text
    = Ok {| name := Some (py "python javascript leadership");
            email := None; phone := None;
            skills := [py "python"; py "javascript"; py "leadership"];
            education := []; experience := []; projects := [] |}.
Proof.
  apply (@parse_resume_returns_parsed ascii_tables (sample_get pdf_response)
           (fun _ => [])
           (fun _ => Some [Some (py "python javascript leadership")])
           (fun _ => None) sample_str []).
  vm_compute. reflexivity.
Defined.
